(** * contacts2notion: the reconciliation engine, embedded and verified

    A shallow embedding of [src/contacts2notion/models.py] (the [Contact]
    record and its four converters) and of
    [src/contacts2notion/notion/sync.py] (the identity index, the merge
    policy and the sync orchestrator).

    Conventions of the embedding.
    - Payloads exchanged with the two services are JSON values ([json]);
      a Python [dict] coming from JSON is an association list with string
      keys.
    - Python exceptions are values of [exn]; code that may raise lives in
      [result] (pure code) or in the state-and-exception monad [M]
      (orchestrator code, which also threads the syncer's indexes, the
      external world and the log of client calls).
    - Strings are byte strings: [lower], [isdigit] and [strip] act on ASCII.
    - [datetime.date(y, m, d)] is CPython's C implementation: each
      argument is parsed as a C [int] ([TypeError] for a non-integer,
      [OverflowError] for an integer outside the range of a C [int]), then
      [ValueError] is raised when the three integers are outside the
      documented ranges of a date. *)

From Stdlib Require Import ZArith String Ascii List Lia Bool DecimalString.
From stdpp Require Import base option list strings gmap.

Local Open Scope Z_scope.
Local Open Scope string_scope.
Local Open Scope list_scope.

(** ** Python exceptions and results *)

Inductive exn_class :=
| ValueError | AttributeError | TypeError | KeyError | IndexError | OverflowError
| ValidationError | GoogleAPIError | NotionAPIError | RuntimeError.

(** An exception object: its class and [str(e)]. *)
Record exn := Exn { exn_cls : exn_class; exn_msg : string }.

Inductive result (A : Type) :=
| Ok (a : A)
| Raise (e : exn).
Arguments Ok {A} a.
Arguments Raise {A} e.

#[global] Instance result_ret : MRet result := fun _ a => Ok a.
#[global] Instance result_bind : MBind result := fun _ _ f m =>
  match m with Ok a => f a | Raise e => Raise e end.

#[global] Instance result_fmap : FMap result := fun _ _ f m =>
  match m with Ok a => Ok (f a) | Raise e => Raise e end.

Definition is_ok {A} (r : result A) : bool :=
  match r with Ok _ => true | Raise _ => false end.

(** ** JSON values and the Python operations the code applies to them *)

#[local] Unset Elimination Schemes.
Inductive json :=
| JNull
| JBool (b : bool)
| JInt (n : Z)
| JStr (s : string)
| JList (l : list json)
| JDict (d : list (string * json)).
#[local] Set Elimination Schemes.

Definition type_name (v : json) : string :=
  match v with
  | JNull => "NoneType" | JBool _ => "bool" | JInt _ => "int"
  | JStr _ => "str" | JList _ => "list" | JDict _ => "dict"
  end.

(** [bool(v)]: Python truthiness. *)
Definition truthy (v : json) : bool :=
  match v with
  | JNull => false
  | JBool b => b
  | JInt n => negb (n =? 0)%Z
  | JStr s => negb (String.eqb s "")
  | JList l => match l with [] => false | _ => true end
  | JDict d => match d with [] => false | _ => true end
  end.

Fixpoint dict_lookup (k : string) (d : list (string * json)) : option json :=
  match d with
  | [] => None
  | (k', v) :: d' => if String.eqb k k' then Some v else dict_lookup k d'
  end.

Fixpoint dict_delete (k : string) (d : list (string * json)) : list (string * json) :=
  match d with
  | [] => []
  | (k', v) :: d' =>
      if String.eqb k k' then dict_delete k d' else (k', v) :: dict_delete k d'
  end.

Definition dict_keys (d : list (string * json)) : list string := map fst d.

Definition no_attribute (v : json) (attr : string) : exn :=
  Exn AttributeError ("'" +:+ type_name v +:+ "' object has no attribute '" +:+ attr +:+ "'").

(** [o.get(k, dflt)] *)
Definition py_get (o : json) (k : string) (dflt : json) : result json :=
  match o with
  | JDict d => Ok (default dflt (dict_lookup k d))
  | _ => Raise (no_attribute o "get")
  end.

(** [o.get(k)], whose default is [None] *)
Definition py_get_none (o : json) (k : string) : result json := py_get o k JNull.

Definition string_head (s : string) : option string :=
  match s with
  | EmptyString => None
  | String a _ => Some (String a EmptyString)
  end.

Fixpoint string_nth (i : nat) (s : string) : option string :=
  match i, s with
  | _, EmptyString => None
  | O, String a _ => Some (String a EmptyString)
  | S i', String _ s' => string_nth i' s'
  end.

Fixpoint nat_to_digits (fuel n : nat) (acc : string) : string :=
  match fuel with
  | O => acc
  | S fuel' =>
      let acc' := String (ascii_of_nat (48 + n mod 10)) acc in
      if (n / 10 =? 0)%nat then acc' else nat_to_digits fuel' (n / 10) acc'
  end.

(** [str(n)] for a natural number *)
Definition nat_to_string (n : nat) : string := nat_to_digits (S n) n "".

(** [o[i]] for a literal index [i] *)
Definition py_index (o : json) (i : nat) : result json :=
  match o with
  | JList l =>
      match l !! i with
      | Some v => Ok v
      | None => Raise (Exn IndexError "list index out of range")
      end
  | JStr s =>
      match string_nth i s with
      | Some c => Ok (JStr c)
      | None => Raise (Exn IndexError "string index out of range")
      end
  | JDict _ => Raise (Exn KeyError (nat_to_string i))
  | _ => Raise (Exn TypeError ("'" +:+ type_name o +:+ "' object is not subscriptable"))
  end.

(** [o["k"]] for a string key *)
Definition py_getitem (o : json) (k : string) : result json :=
  match o with
  | JDict d =>
      match dict_lookup k d with
      | Some v => Ok v
      | None => Raise (Exn KeyError ("'" +:+ k +:+ "'"))
      end
  | JList _ => Raise (Exn TypeError "list indices must be integers or slices, not str")
  | JStr _ => Raise (Exn TypeError "string indices must be integers, not 'str'")
  | _ => Raise (Exn TypeError ("'" +:+ type_name o +:+ "' object is not subscriptable"))
  end.

(** [len(o)] *)
Definition py_len (o : json) : result nat :=
  match o with
  | JList l => Ok (length l)
  | JStr s => Ok (String.length s)
  | JDict d => Ok (length d)
  | _ => Raise (Exn TypeError ("object of type '" +:+ type_name o +:+ "' has no len()"))
  end.

(** ** ASCII string operations *)

Definition is_upper (a : ascii) : bool :=
  let n := nat_of_ascii a in (65 <=? n)%nat && (n <=? 90)%nat.

Definition lower_ascii (a : ascii) : ascii :=
  if is_upper a then ascii_of_nat (nat_of_ascii a + 32) else a.

(** [s.lower()] *)
Fixpoint lower (s : string) : string :=
  match s with
  | EmptyString => EmptyString
  | String a s' => String (lower_ascii a) (lower s')
  end.

(** [c.isdigit()] for a one-character string *)
Definition isdigit (a : ascii) : bool :=
  let n := nat_of_ascii a in (48 <=? n)%nat && (n <=? 57)%nat.

(** ["".join(c for c in s if c.isdigit())] *)
Fixpoint digits_of (s : string) : string :=
  match s with
  | EmptyString => EmptyString
  | String a s' => if isdigit a then String a (digits_of s') else digits_of s'
  end.

(** [s.isdigit()] for a whole string: non-empty and digits only *)
Fixpoint all_digits (s : string) : bool :=
  match s with
  | EmptyString => true
  | String a s' => isdigit a && all_digits s'
  end.

Definition str_isdigit (s : string) : bool :=
  negb (String.eqb s "") && all_digits s.

(** The characters [str.strip()] removes. *)
Definition is_space (a : ascii) : bool :=
  let n := nat_of_ascii a in
  ((9 <=? n)%nat && (n <=? 13)%nat) || ((28 <=? n)%nat && (n <=? 32)%nat).

Fixpoint lstrip (s : string) : string :=
  match s with
  | EmptyString => EmptyString
  | String a s' => if is_space a then lstrip s' else s
  end.

Fixpoint rstrip (s : string) : string :=
  match s with
  | EmptyString => EmptyString
  | String a s' =>
      match rstrip s' with
      | EmptyString => if is_space a then EmptyString else String a EmptyString
      | r => String a r
      end
  end.

(** [s.strip()] *)
Definition strip (s : string) : string := rstrip (lstrip s).

(** [s.replace("Z", "+00:00")] *)
Fixpoint replace_Z (s : string) : string :=
  match s with
  | EmptyString => EmptyString
  | String a s' =>
      if Ascii.eqb a "Z"%char then "+00:00" +:+ replace_Z s' else String a (replace_Z s')
  end.

(** [sub in s] *)
Fixpoint substringb (sub s : string) : bool :=
  String.prefix sub s ||
  match s with
  | EmptyString => false
  | String _ s' => substringb sub s'
  end.

Definition contains (sub s : string) : Prop :=
  exists p q : string, s = p +:+ sub +:+ q.

(** [a == b] on JSON values.  Dictionaries are compared as association
    lists: the two operands of the only comparison in the code
    ([google_data != merged_data]) are built by the same function, which
    inserts its keys in one fixed order. *)
Fixpoint json_eqb (a b : json) : bool :=
  match a, b with
  | JNull, JNull => true
  | JBool x, JBool y => Bool.eqb x y
  | JInt x, JInt y => (x =? y)%Z
  | JStr x, JStr y => String.eqb x y
  | JList l, JList m =>
      (fix go (l m : list json) : bool :=
         match l, m with
         | [], [] => true
         | x :: l', y :: m' => json_eqb x y && go l' m'
         | _, _ => false
         end) l m
  | JDict l, JDict m =>
      (fix go (l m : list (string * json)) : bool :=
         match l, m with
         | [], [] => true
         | (k, x) :: l', (k', y) :: m' => String.eqb k k' && json_eqb x y && go l' m'
         | _, _ => false
         end) l m
  | _, _ => false
  end.

(** * models.py *)

(** ** [datetime.date] *)

Record date := mkDate { year : Z; month : Z; day : Z }.

Record datetime := mkDatetime {
  dt_date : date; hour : Z; minute : Z; second : Z; microsecond : Z }.

Definition is_leap (y : Z) : bool :=
  (y mod 4 =? 0)%Z && (negb (y mod 100 =? 0)%Z || (y mod 400 =? 0)%Z).

Definition days_in_month (y m : Z) : Z :=
  if (m =? 2)%Z then (if is_leap y then 29 else 28)
  else if (m =? 4)%Z || (m =? 6)%Z || (m =? 9)%Z || (m =? 11)%Z then 30
  else 31.

(** The arguments [date(y, m, d)] accepts: [MINYEAR <= y <= MAXYEAR],
    [1 <= m <= 12], [1 <= d <=] the number of days of that month. *)
Definition valid_date (y m d : Z) : bool :=
  (1 <=? y)%Z && (y <=? 9999)%Z && (1 <=? m)%Z && (m <=? 12)%Z &&
  (1 <=? d)%Z && (d <=? days_in_month y m)%Z.

(** [str(n)] of an integer *)
Definition int_to_string (n : Z) : string := NilZero.string_of_int (Z.to_int n).

(** [date(y, m, d)] on three C [int]s: the range checks, in the order
    and with the messages of [check_date_args]. *)
Definition date_new (y m d : Z) : result date :=
  if negb ((1 <=? y)%Z && (y <=? 9999)%Z) then
    Raise (Exn ValueError ("year " +:+ int_to_string y +:+ " is out of range"))
  else if negb ((1 <=? m)%Z && (m <=? 12)%Z) then
    Raise (Exn ValueError "month must be in 1..12")
  else if negb ((1 <=? d)%Z && (d <=? days_in_month y m)%Z) then
    Raise (Exn ValueError "day is out of range for month")
  else Ok (mkDate y m d).

(** ** [class Contact(BaseModel)] *)

Record Contact := mkContact {
  google_id : string;
  first_name : string;
  last_name : string;
  company : option string;
  title : option string;
  department : option string;
  primary_email : option string;
  secondary_email : option string;
  primary_phone : option string;
  secondary_phone : option string;
  birthday : option date;
  address : option string;
  website : option string;
  hide_birthday : bool;
  tags : list string;
  notes : option string;
  last_contacted : option date;
  last_synced_at : option datetime }.

(** Truthiness of the field types: a [str] is falsy when empty, a
    [str | None] when [None] or empty, a [date | None] only when [None]. *)
Definition str_truthy (s : string) : bool := negb (String.eqb s "").

Definition ostr_truthy (o : option string) : bool :=
  match o with Some s => str_truthy s | None => false end.

Definition odate_truthy (o : option date) : bool :=
  match o with Some _ => true | None => false end.

(** Attribute assignment [c.f = v], one setter per assigned field. *)
Definition set_company (v : option string) (c : Contact) : Contact :=
  mkContact (google_id c) (first_name c) (last_name c) v (title c) (department c)
    (primary_email c) (secondary_email c) (primary_phone c) (secondary_phone c)
    (birthday c) (address c) (website c) (hide_birthday c) (tags c) (notes c)
    (last_contacted c) (last_synced_at c).

Definition set_title (v : option string) (c : Contact) : Contact :=
  mkContact (google_id c) (first_name c) (last_name c) (company c) v (department c)
    (primary_email c) (secondary_email c) (primary_phone c) (secondary_phone c)
    (birthday c) (address c) (website c) (hide_birthday c) (tags c) (notes c)
    (last_contacted c) (last_synced_at c).

Definition set_department (v : option string) (c : Contact) : Contact :=
  mkContact (google_id c) (first_name c) (last_name c) (company c) (title c) v
    (primary_email c) (secondary_email c) (primary_phone c) (secondary_phone c)
    (birthday c) (address c) (website c) (hide_birthday c) (tags c) (notes c)
    (last_contacted c) (last_synced_at c).

Definition set_primary_email (v : option string) (c : Contact) : Contact :=
  mkContact (google_id c) (first_name c) (last_name c) (company c) (title c) (department c)
    v (secondary_email c) (primary_phone c) (secondary_phone c)
    (birthday c) (address c) (website c) (hide_birthday c) (tags c) (notes c)
    (last_contacted c) (last_synced_at c).

Definition set_secondary_email (v : option string) (c : Contact) : Contact :=
  mkContact (google_id c) (first_name c) (last_name c) (company c) (title c) (department c)
    (primary_email c) v (primary_phone c) (secondary_phone c)
    (birthday c) (address c) (website c) (hide_birthday c) (tags c) (notes c)
    (last_contacted c) (last_synced_at c).

Definition set_primary_phone (v : option string) (c : Contact) : Contact :=
  mkContact (google_id c) (first_name c) (last_name c) (company c) (title c) (department c)
    (primary_email c) (secondary_email c) v (secondary_phone c)
    (birthday c) (address c) (website c) (hide_birthday c) (tags c) (notes c)
    (last_contacted c) (last_synced_at c).

Definition set_secondary_phone (v : option string) (c : Contact) : Contact :=
  mkContact (google_id c) (first_name c) (last_name c) (company c) (title c) (department c)
    (primary_email c) (secondary_email c) (primary_phone c) v
    (birthday c) (address c) (website c) (hide_birthday c) (tags c) (notes c)
    (last_contacted c) (last_synced_at c).

Definition set_birthday (v : option date) (c : Contact) : Contact :=
  mkContact (google_id c) (first_name c) (last_name c) (company c) (title c) (department c)
    (primary_email c) (secondary_email c) (primary_phone c) (secondary_phone c)
    v (address c) (website c) (hide_birthday c) (tags c) (notes c)
    (last_contacted c) (last_synced_at c).

Definition set_address (v : option string) (c : Contact) : Contact :=
  mkContact (google_id c) (first_name c) (last_name c) (company c) (title c) (department c)
    (primary_email c) (secondary_email c) (primary_phone c) (secondary_phone c)
    (birthday c) v (website c) (hide_birthday c) (tags c) (notes c)
    (last_contacted c) (last_synced_at c).

Definition set_website (v : option string) (c : Contact) : Contact :=
  mkContact (google_id c) (first_name c) (last_name c) (company c) (title c) (department c)
    (primary_email c) (secondary_email c) (primary_phone c) (secondary_phone c)
    (birthday c) (address c) v (hide_birthday c) (tags c) (notes c)
    (last_contacted c) (last_synced_at c).

Definition set_hide_birthday (v : bool) (c : Contact) : Contact :=
  mkContact (google_id c) (first_name c) (last_name c) (company c) (title c) (department c)
    (primary_email c) (secondary_email c) (primary_phone c) (secondary_phone c)
    (birthday c) (address c) (website c) v (tags c) (notes c)
    (last_contacted c) (last_synced_at c).

Definition set_tags (v : list string) (c : Contact) : Contact :=
  mkContact (google_id c) (first_name c) (last_name c) (company c) (title c) (department c)
    (primary_email c) (secondary_email c) (primary_phone c) (secondary_phone c)
    (birthday c) (address c) (website c) (hide_birthday c) v (notes c)
    (last_contacted c) (last_synced_at c).

Definition set_notes (v : option string) (c : Contact) : Contact :=
  mkContact (google_id c) (first_name c) (last_name c) (company c) (title c) (department c)
    (primary_email c) (secondary_email c) (primary_phone c) (secondary_phone c)
    (birthday c) (address c) (website c) (hide_birthday c) (tags c) v
    (last_contacted c) (last_synced_at c).

Definition set_last_contacted (v : option date) (c : Contact) : Contact :=
  mkContact (google_id c) (first_name c) (last_name c) (company c) (title c) (department c)
    (primary_email c) (secondary_email c) (primary_phone c) (secondary_phone c)
    (birthday c) (address c) (website c) (hide_birthday c) (tags c) (notes c)
    v (last_synced_at c).

Definition set_last_synced_at (v : option datetime) (c : Contact) : Contact :=
  mkContact (google_id c) (first_name c) (last_name c) (company c) (title c) (department c)
    (primary_email c) (secondary_email c) (primary_phone c) (secondary_phone c)
    (birthday c) (address c) (website c) (hide_birthday c) (tags c) (notes c)
    (last_contacted c) v.

(** ** Values handed to and returned by the pydantic constructor *)

Definition ostr_json (o : option string) : json :=
  match o with Some s => JStr s | None => JNull end.

(** [o or ""] for a [str | None] *)
Definition or_empty (o : option string) : string :=
  match o with Some s => s | None => "" end.

(** [v or ""] for a JSON value *)
Definition py_or_empty (v : json) : json := if truthy v then v else JStr "".

Definition validation_error (field : string) : exn :=
  Exn ValidationError ("1 validation error for Contact: " +:+ field).

(** Validation of a field declared [str]. *)
Definition validate_str (field : string) (v : json) : result string :=
  match v with JStr s => Ok s | _ => Raise (validation_error field) end.

(** Validation of a field declared [str | None]. *)
Definition validate_opt_str (field : string) (v : json) : result (option string) :=
  match v with
  | JNull => Ok None
  | JStr s => Ok (Some s)
  | _ => Raise (validation_error field)
  end.

Definition bool_false_words : list string := ["0"; "off"; "f"; "false"; "n"; "no"].
Definition bool_true_words : list string := ["1"; "on"; "t"; "true"; "y"; "yes"].

(** Validation of a field declared [bool] (pydantic's lax mode). *)
Definition validate_bool (field : string) (v : json) : result bool :=
  match v with
  | JBool b => Ok b
  | JInt 0 => Ok false
  | JInt 1 => Ok true
  | JStr s =>
      if existsb (String.eqb (lower s)) bool_false_words then Ok false
      else if existsb (String.eqb (lower s)) bool_true_words then Ok true
      else Raise (validation_error field)
  | _ => Raise (validation_error field)
  end.

(** Validation of a field declared [list[str]], given a Python list. *)
Fixpoint validate_str_list (field : string) (l : list json) : result (list string) :=
  match l with
  | [] => Ok []
  | v :: l' =>
      s ← validate_str field v;
      r ← validate_str_list field l';
      Ok (s :: r)
  end.

(** An argument of [date(...)]: an [int] ([bool] is a subclass of [int]). *)
Definition as_int (v : json) : result Z :=
  match v with
  | JInt n => Ok n
  | JBool b => Ok (if b then 1 else 0)
  | _ => Raise (Exn TypeError ("'" +:+ type_name v +:+ "' object cannot be interpreted as an integer"))
  end.

(** The ranges of a C [int] and of a C [long] (64-bit). *)
Definition INT_MIN : Z := -2147483648.
Definition INT_MAX : Z := 2147483647.
Definition LONG_MIN : Z := -9223372036854775808.
Definition LONG_MAX : Z := 9223372036854775807.

(** An argument parsed with the format unit [i], as [date] parses each
    of its three: converted to a C [long], then narrowed to a C [int]. *)
Definition c_int (v : json) : result Z :=
  n ← as_int v;
  if (n <? LONG_MIN)%Z || (LONG_MAX <? n)%Z then
    Raise (Exn OverflowError "Python int too large to convert to C long")
  else if (INT_MAX <? n)%Z then
    Raise (Exn OverflowError "signed integer is greater than maximum")
  else if (n <? INT_MIN)%Z then
    Raise (Exn OverflowError "signed integer is less than minimum")
  else Ok n.

(** [date(y, m, d)] applied to JSON values: the arguments are parsed
    from left to right, then checked. *)
Definition py_date (y m d : json) : result date :=
  y' ← c_int y; m' ← c_int m; d' ← c_int d; date_new y' m' d'.

(** ** [Contact.from_google_api] *)

(** Lines 71-83: the birthday block. *)
Definition google_birthday (person : json) : result (option date) :=
  birthdays ← py_get person "birthdays" (JList []);
  if truthy birthdays then
    b0 ← py_index birthdays 0;
    bd ← py_get b0 "date" (JDict []);
    year ← py_get bd "year" (JInt 1900);
    month ← py_get_none bd "month";
    day ← py_get_none bd "day";
    if truthy month && truthy day then
      match py_date year month day with
      | Ok d => Ok (Some d)
      | Raise e =>
          match exn_cls e with
          | ValueError => Ok None
          | _ => Raise e
          end
      end
    else Ok None
  else Ok None.

Definition first_get (l : json) (k : string) (dflt : json) : result json :=
  if truthy l then x ← py_index l 0; py_get x k dflt else Ok dflt.

Definition nth_value (l : json) (i : nat) : result json :=
  n ← py_len l;
  if (i <? n)%nat then x ← py_index l i; py_get_none x "value" else Ok JNull.

Definition from_google_api (person : json) : result Contact :=
  google_id ← py_get person "resourceName" (JStr "");
  names ← py_get person "names" (JList []);
  first_name ← first_get names "givenName" (JStr "");
  last_name ← first_get names "familyName" (JStr "");
  emails ← py_get person "emailAddresses" (JList []);
  primary_email ← nth_value emails 0;
  secondary_email ← nth_value emails 1;
  phones ← py_get person "phoneNumbers" (JList []);
  primary_phone ← nth_value phones 0;
  secondary_phone ← nth_value phones 1;
  birthday_obj ← google_birthday person;
  orgs ← py_get person "organizations" (JList []);
  company ← first_get orgs "name" JNull;
  title ← first_get orgs "title" JNull;
  department ← first_get orgs "department" JNull;
  addresses ← py_get person "addresses" (JList []);
  address ← first_get addresses "formattedValue" JNull;
  urls ← py_get person "urls" (JList []);
  website ← first_get urls "value" JNull;
  google_id ← validate_str "google_id" google_id;
  first_name ← validate_str "first_name" first_name;
  last_name ← validate_str "last_name" last_name;
  company ← validate_opt_str "company" company;
  title ← validate_opt_str "title" title;
  department ← validate_opt_str "department" department;
  primary_email ← validate_opt_str "primary_email" primary_email;
  secondary_email ← validate_opt_str "secondary_email" secondary_email;
  primary_phone ← validate_opt_str "primary_phone" primary_phone;
  secondary_phone ← validate_opt_str "secondary_phone" secondary_phone;
  address ← validate_opt_str "address" address;
  website ← validate_opt_str "website" website;
  Ok (mkContact google_id first_name last_name company title department
        primary_email secondary_email primary_phone secondary_phone
        birthday_obj address website false [] None None None).

(** ** [Contact.from_notion_page] *)

(** [for x in o]: the items a [for] loop or comprehension visits. *)
Fixpoint string_chars (s : string) : list json :=
  match s with
  | EmptyString => []
  | String a s' => JStr (String a EmptyString) :: string_chars s'
  end.

Definition py_iter (o : json) : result (list json) :=
  match o with
  | JList l => Ok l
  | JStr s => Ok (string_chars s)
  | JDict d => Ok (map (fun kv => JStr (fst kv)) d)
  | _ => Raise (Exn TypeError ("'" +:+ type_name o +:+ "' object is not iterable"))
  end.

Section FromNotion.
(** [datetime.fromisoformat(s)]: [None] stands for its [ValueError]. *)
Variable fromisoformat : string -> option datetime.

Definition get_title (props : json) (prop_name : string) : result json :=
  prop ← py_get props prop_name (JDict []);
  title_list ← py_get prop "title" (JList []);
  if truthy title_list then
    t0 ← py_index title_list 0; py_get t0 "plain_text" (JStr "")
  else Ok (JStr "").

Definition get_rich_text (props : json) (prop_name : string) : result json :=
  prop ← py_get props prop_name (JDict []);
  rich_text ← py_get prop "rich_text" (JList []);
  if truthy rich_text then
    r0 ← py_index rich_text 0; py_get r0 "plain_text" (JStr "")
  else Ok JNull.

Definition get_email (props : json) (prop_name : string) : result json :=
  prop ← py_get props prop_name (JDict []);
  py_get_none prop "email".

Definition get_phone (props : json) (prop_name : string) : result json :=
  prop ← py_get props prop_name (JDict []);
  py_get_none prop "phone_number".

(** The [try] block of [get_date]: a value without [replace] raises
    [AttributeError], a string [fromisoformat] rejects raises
    [ValueError]; both are caught. *)
Definition parse_start (start : json) : option date :=
  match start with
  | JStr s => dt_date <$> fromisoformat (replace_Z s)
  | _ => None
  end.

Definition get_date (props : json) (prop_name : string) : result (option date) :=
  prop ← py_get props prop_name (JDict []);
  date_obj ← py_get_none prop "date";
  if truthy date_obj then
    start ← py_get_none date_obj "start";
    if truthy start then Ok (parse_start start) else Ok None
  else Ok None.

Definition get_checkbox (props : json) (prop_name : string) : result json :=
  prop ← py_get props prop_name (JDict []);
  py_get prop "checkbox" (JBool false).

Fixpoint option_names (opts : list json) : result (list json) :=
  match opts with
  | [] => Ok []
  | opt :: opts' =>
      n ← py_get opt "name" (JStr "");
      r ← option_names opts';
      Ok (n :: r)
  end.

Definition get_multi_select (props : json) (prop_name : string) : result (list json) :=
  prop ← py_get props prop_name (JDict []);
  options ← py_get prop "multi_select" (JList []);
  opts ← py_iter options;
  option_names opts.

Definition get_url (props : json) (prop_name : string) : result json :=
  prop ← py_get props prop_name (JDict []);
  py_get_none prop "url".

Definition from_notion_page (page : json) : result Contact :=
  props ← py_get page "properties" (JDict []);
  google_id ← py_or_empty <$> get_rich_text props "Google ID";
  first_name ← py_or_empty <$> get_title props "First Name";
  last_name ← py_or_empty <$> get_rich_text props "Last Name";
  company ← get_rich_text props "Company";
  title ← get_rich_text props "Job Title";
  department ← get_rich_text props "Department";
  primary_email ← get_email props "Primary Email";
  secondary_email ← get_email props "Secondary Email";
  primary_phone ← get_phone props "Primary Phone";
  secondary_phone ← get_phone props "Secondary Phone";
  birthday ← get_date props "Birthday";
  address ← get_rich_text props "Address";
  website ← get_url props "Website";
  hide_birthday ← get_checkbox props "Hide Birthday";
  tags ← get_multi_select props "Tags";
  notes ← get_rich_text props "Notes";
  last_contacted ← get_date props "Last Contacted";
  google_id ← validate_str "google_id" google_id;
  first_name ← validate_str "first_name" first_name;
  last_name ← validate_str "last_name" last_name;
  company ← validate_opt_str "company" company;
  title ← validate_opt_str "title" title;
  department ← validate_opt_str "department" department;
  primary_email ← validate_opt_str "primary_email" primary_email;
  secondary_email ← validate_opt_str "secondary_email" secondary_email;
  primary_phone ← validate_opt_str "primary_phone" primary_phone;
  secondary_phone ← validate_opt_str "secondary_phone" secondary_phone;
  address ← validate_opt_str "address" address;
  website ← validate_opt_str "website" website;
  hide_birthday ← validate_bool "hide_birthday" hide_birthday;
  tags ← validate_str_list "tags" tags;
  notes ← validate_opt_str "notes" notes;
  Ok (mkContact google_id first_name last_name company title department
        primary_email secondary_email primary_phone secondary_phone
        birthday address website hide_birthday tags notes last_contacted None).
End FromNotion.

(** ** [Contact.to_notion_properties] *)

Fixpoint zeros (n : nat) : string :=
  match n with O => "" | S n' => String "0"%char (zeros n') end.

(** ["%0<width>d" % n] for a non-negative [n] *)
Definition zero_padded (width : nat) (n : Z) : string :=
  let s := nat_to_string (Z.to_nat n) in
  zeros (width - String.length s) +:+ s.

(** [d.isoformat()] *)
Definition isoformat (d : date) : string :=
  zero_padded 4 (year d) +:+ "-" +:+ zero_padded 2 (month d) +:+ "-" +:+ zero_padded 2 (day d).

Definition text_content (value : string) : json :=
  JDict [("text", JDict [("content", JStr value)])].

Definition rich_text_prop (value : option string) : json :=
  if ostr_truthy value
  then JDict [("rich_text", JList [text_content (or_empty value)])]
  else JDict [("rich_text", JList [])].

Definition title_prop (value : string) : json :=
  JDict [("title", JList [text_content value])].

Definition email_prop (value : option string) : json :=
  if ostr_truthy value then JDict [("email", ostr_json value)] else JDict [("email", JNull)].

Definition phone_prop (value : option string) : json :=
  if ostr_truthy value then JDict [("phone_number", ostr_json value)]
  else JDict [("phone_number", JNull)].

Definition date_prop (value : option date) : json :=
  match value with
  | Some d => JDict [("date", JDict [("start", JStr (isoformat d))])]
  | None => JDict [("date", JNull)]
  end.

Definition url_prop (value : option string) : json :=
  if ostr_truthy value then JDict [("url", ostr_json value)] else JDict [("url", JNull)].

Definition checkbox_prop (value : bool) : json := JDict [("checkbox", JBool value)].

Definition multi_select_prop (values : list string) : json :=
  JDict [("multi_select", JList (map (fun tag => JDict [("name", JStr tag)]) values))].

(** [today] is [datetime.now().date()], read when the method is called. *)
Definition to_notion_properties (today : date) (self : Contact) : json :=
  JDict [
    ("First Name", title_prop (first_name self));
    ("Last Name", rich_text_prop (Some (last_name self)));
    ("Company", rich_text_prop (company self));
    ("Job Title", rich_text_prop (title self));
    ("Department", rich_text_prop (department self));
    ("Primary Email", email_prop (primary_email self));
    ("Secondary Email", email_prop (secondary_email self));
    ("Primary Phone", phone_prop (primary_phone self));
    ("Secondary Phone", phone_prop (secondary_phone self));
    ("Birthday", date_prop (birthday self));
    ("Address", rich_text_prop (address self));
    ("Website", url_prop (website self));
    ("Hide Birthday", checkbox_prop (hide_birthday self));
    ("Tags", multi_select_prop (tags self));
    ("Notes", rich_text_prop (notes self));
    ("Last Contacted", date_prop (last_contacted self));
    ("Google ID", rich_text_prop (Some (google_id self)));
    ("Last Synced", date_prop (Some today))
  ].

(** ** [Contact.to_google_person] *)

(** [person[k] = v] for a key not yet in [person]. *)
Definition dict_add (k : string) (v : json) (d : list (string * json)) : list (string * json) :=
  d ++ [(k, v)].

Definition to_google_person (self : Contact) : list (string * json) :=
  let person := [] in
  let person :=
    if str_truthy (first_name self) || str_truthy (last_name self) then
      dict_add "names"
        (JList [JDict [("givenName", JStr (first_name self));
                       ("familyName", JStr (last_name self))]]) person
    else person in
  let emails := [] in
  let emails :=
    if ostr_truthy (primary_email self)
    then emails ++ [JDict [("value", ostr_json (primary_email self)); ("type", JStr "work")]]
    else emails in
  let emails :=
    if ostr_truthy (secondary_email self)
    then emails ++ [JDict [("value", ostr_json (secondary_email self)); ("type", JStr "home")]]
    else emails in
  let person :=
    if truthy (JList emails) then dict_add "emailAddresses" (JList emails) person else person in
  let phones := [] in
  let phones :=
    if ostr_truthy (primary_phone self)
    then phones ++ [JDict [("value", ostr_json (primary_phone self)); ("type", JStr "mobile")]]
    else phones in
  let phones :=
    if ostr_truthy (secondary_phone self)
    then phones ++ [JDict [("value", ostr_json (secondary_phone self)); ("type", JStr "home")]]
    else phones in
  let person :=
    if truthy (JList phones) then dict_add "phoneNumbers" (JList phones) person else person in
  let person :=
    match birthday self with
    | Some b =>
        if negb (hide_birthday self) then
          dict_add "birthdays"
            (JList [JDict [("date", JDict [("year", JInt (year b));
                                           ("month", JInt (month b));
                                           ("day", JInt (day b))])]]) person
        else person
    | None => person
    end in
  let person :=
    if ostr_truthy (company self) || ostr_truthy (title self) || ostr_truthy (department self) then
      dict_add "organizations"
        (JList [JDict [("name", JStr (or_empty (company self)));
                       ("title", JStr (or_empty (title self)));
                       ("department", JStr (or_empty (department self)))]]) person
    else person in
  let person :=
    if ostr_truthy (address self)
    then dict_add "addresses" (JList [JDict [("formattedValue", ostr_json (address self))]]) person
    else person in
  let person :=
    if ostr_truthy (website self)
    then dict_add "urls"
           (JList [JDict [("value", ostr_json (website self)); ("type", JStr "homepage")]]) person
    else person in
  person.

(** The method call on the object: the body reads [self] and assigns to
    none of its attributes, so the object after the call is the object
    before it. *)
Definition call_to_google_person (self : Contact) : list (string * json) * Contact :=
  (to_google_person self, self).

(** The names under which the database-only attributes exist in the
    program: the model's attribute names and the database's property
    names. *)
Definition database_only_names : list string :=
  ["hide_birthday"; "tags"; "notes"; "last_contacted";
   "Hide Birthday"; "Tags"; "Notes"; "Last Contacted"].

Definition google_person_keys : list string :=
  ["names"; "emailAddresses"; "phoneNumbers"; "birthdays"; "organizations";
   "addresses"; "urls"].

(** * notion/sync.py: the merge policy *)

Definition _merge_contacts (google_contact notion_contact : Contact) : Contact :=
  let merged := google_contact in
  let merged :=
    if negb (ostr_truthy (primary_email merged)) && ostr_truthy (primary_email notion_contact)
    then set_primary_email (primary_email notion_contact) merged else merged in
  let merged :=
    if negb (ostr_truthy (secondary_email merged)) && ostr_truthy (secondary_email notion_contact)
    then set_secondary_email (secondary_email notion_contact) merged else merged in
  let merged :=
    if negb (ostr_truthy (primary_phone merged)) && ostr_truthy (primary_phone notion_contact)
    then set_primary_phone (primary_phone notion_contact) merged else merged in
  let merged :=
    if negb (ostr_truthy (secondary_phone merged)) && ostr_truthy (secondary_phone notion_contact)
    then set_secondary_phone (secondary_phone notion_contact) merged else merged in
  let merged :=
    if negb (odate_truthy (birthday merged)) && odate_truthy (birthday notion_contact)
       && negb (hide_birthday notion_contact)
    then set_birthday (birthday notion_contact) merged else merged in
  let merged :=
    if negb (ostr_truthy (company merged)) && ostr_truthy (company notion_contact)
    then set_company (company notion_contact) merged else merged in
  let merged :=
    if negb (ostr_truthy (title merged)) && ostr_truthy (title notion_contact)
    then set_title (title notion_contact) merged else merged in
  let merged :=
    if negb (ostr_truthy (department merged)) && ostr_truthy (department notion_contact)
    then set_department (department notion_contact) merged else merged in
  let merged :=
    if negb (ostr_truthy (address merged)) && ostr_truthy (address notion_contact)
    then set_address (address notion_contact) merged else merged in
  let merged :=
    if negb (ostr_truthy (website merged)) && ostr_truthy (website notion_contact)
    then set_website (website notion_contact) merged else merged in
  let merged :=
    if hide_birthday notion_contact then set_birthday None merged else merged in
  merged.

(** ** The merge rule, field by field *)

(** The fields the model declares as core contact fields, synced both ways. *)
Inductive synced_field :=
| F_first_name | F_last_name | F_company | F_title | F_department
| F_primary_email | F_secondary_email | F_primary_phone | F_secondary_phone
| F_birthday | F_address | F_website.

Inductive field_value :=
| VStr (s : string)
| VOptStr (o : option string)
| VOptDate (o : option date).

Definition field_get (f : synced_field) (c : Contact) : field_value :=
  match f with
  | F_first_name => VStr (first_name c)
  | F_last_name => VStr (last_name c)
  | F_company => VOptStr (company c)
  | F_title => VOptStr (title c)
  | F_department => VOptStr (department c)
  | F_primary_email => VOptStr (primary_email c)
  | F_secondary_email => VOptStr (secondary_email c)
  | F_primary_phone => VOptStr (primary_phone c)
  | F_secondary_phone => VOptStr (secondary_phone c)
  | F_birthday => VOptDate (birthday c)
  | F_address => VOptStr (address c)
  | F_website => VOptStr (website c)
  end.

Definition nonempty (v : field_value) : bool :=
  match v with
  | VStr s => str_truthy s
  | VOptStr o => ostr_truthy o
  | VOptDate o => odate_truthy o
  end.

(** The fields [_merge_contacts] fills from the database side. *)
Definition gap_filled (f : synced_field) : bool :=
  match f with
  | F_first_name | F_last_name => false
  | _ => true
  end.

(** The rule as the specification words it: the remote value when it is
    non-empty, otherwise the database value; the birth date is forced to
    null when the database's suppress-birthday flag is set. *)
Definition spec_merge_rule (f : synced_field) (g n : Contact) : field_value :=
  match f with
  | F_birthday =>
      if hide_birthday n then VOptDate None
      else if nonempty (field_get f g) then field_get f g else field_get f n
  | _ => if nonempty (field_get f g) then field_get f g else field_get f n
  end.

(** * notion/sync.py: the orchestrator *)

Record SyncStats := mkStats {
  created : nat; updated : nat; skipped : nat; errors : list string }.

(** [SyncStats()] *)
Definition new_stats : SyncStats := mkStats 0 0 0 [].

Definition incr_created (s : SyncStats) : SyncStats :=
  mkStats (S (created s)) (updated s) (skipped s) (errors s).
Definition incr_updated (s : SyncStats) : SyncStats :=
  mkStats (created s) (S (updated s)) (skipped s) (errors s).
Definition incr_skipped (s : SyncStats) : SyncStats :=
  mkStats (created s) (updated s) (S (skipped s)) (errors s).
(** [stats.errors.append(msg)] *)
Definition append_error (msg : string) (s : SyncStats) : SyncStats :=
  mkStats (created s) (updated s) (skipped s) (errors s ++ [msg]).

(** The syncer object: its database and its four lookup indexes.  Keys are
    strings; a value is whatever [page["id"]] was. *)
Record ContactSyncer := mkSyncer {
  database_id : string;
  _google_id_to_page_id : gmap string json;
  _email_to_page_id : gmap string json;
  _phone_to_page_id : gmap string json;
  _name_to_page_id : gmap string json }.

Definition set_google_index (m : gmap string json) (s : ContactSyncer) : ContactSyncer :=
  mkSyncer (database_id s) m (_email_to_page_id s) (_phone_to_page_id s) (_name_to_page_id s).
Definition set_email_index (m : gmap string json) (s : ContactSyncer) : ContactSyncer :=
  mkSyncer (database_id s) (_google_id_to_page_id s) m (_phone_to_page_id s) (_name_to_page_id s).
Definition set_phone_index (m : gmap string json) (s : ContactSyncer) : ContactSyncer :=
  mkSyncer (database_id s) (_google_id_to_page_id s) (_email_to_page_id s) m (_name_to_page_id s).
Definition set_name_index (m : gmap string json) (s : ContactSyncer) : ContactSyncer :=
  mkSyncer (database_id s) (_google_id_to_page_id s) (_email_to_page_id s) (_phone_to_page_id s) m.

(** [d.get(k)] on an index: [None] when the key is missing. *)
Definition index_get (m : gmap string json) (k : string) : json := default JNull (m !! k).

(** [f"{first.lower()} {last.lower()}".strip()] *)
Definition name_key (first last : string) : string :=
  strip (lower first +:+ " " +:+ lower last).

(** ** [_find_existing_page]: [JNull] is Python's [None] *)
Definition _find_existing_page (self : ContactSyncer) (contact : Contact) : json :=
  if str_truthy (google_id contact)
     && bool_decide (is_Some (_google_id_to_page_id self !! google_id contact))
  then index_get (_google_id_to_page_id self) (google_id contact)
  else
    let by_email :=
      if ostr_truthy (primary_email contact)
      then index_get (_email_to_page_id self) (lower (or_empty (primary_email contact)))
      else JNull in
    if truthy by_email then by_email
    else
      let by_phone :=
        if ostr_truthy (primary_phone contact)
        then index_get (_phone_to_page_id self) (digits_of (or_empty (primary_phone contact)))
        else JNull in
      if truthy by_phone then by_phone
      else
        let by_name :=
          if str_truthy (first_name contact)
          then index_get (_name_to_page_id self)
                 (name_key (first_name contact) (last_name contact))
          else JNull in
        if truthy by_name then by_name else JNull.

(** ** The two collaborators and the clock *)

(** The database client, over a world [W] that holds what lies behind
    it.  [query_database_all] is a generator: it yields pages and may then
    raise. *)
Class NotionClient (W : Type) := {
  notion_query_database_all : string -> W -> (list json * option exn) * W;
  notion_get_page : json -> W -> result json * W;
  notion_update_page : json -> json -> W -> result json * W;
  notion_create_page : string -> json -> W -> result json * W }.

(** The address-book client. *)
Class GoogleContactsClient (W : Type) := {
  google_get_contacts : W -> result (list Contact) * W;
  google_get_contact : string -> W -> result json * W;
  google_update_contact : string -> Contact -> W -> result json * W }.

(** [datetime.now().date()] *)
Class Clock (W : Type) := { clock_today : W -> date }.

(** A call made on one of the two clients. *)
Inductive call :=
| QueryDatabaseAll (database : string)
| GetPage (page_id : json)
| UpdatePage (page_id : json) (properties : json)
| CreatePage (database : string) (properties : json)
| GetContacts
| GetContact (resource_name : string)
| UpdateContact (resource_name : string) (contact : Contact).

Definition is_notion_write (c : call) : bool :=
  match c with UpdatePage _ _ | CreatePage _ _ => true | _ => false end.

Definition is_google_call (c : call) : bool :=
  match c with GetContacts | GetContact _ | UpdateContact _ _ => true | _ => false end.

Definition is_google_write (c : call) : bool :=
  match c with UpdateContact _ _ => true | _ => false end.

Definition is_write (c : call) : bool := is_notion_write c || is_google_write c.

(** [key in d] then [d[key] = value], for a key read from a payload: a
    list or a dict is unhashable; a key that is hashable but not a string
    is stored by Python and equals no string, so no lookup made by the
    program (all are by [str]) ever sees it. *)
Definition dict_store (key value : json) (m : gmap string json) : result (gmap string json) :=
  match key with
  | JStr k => Ok (<[k := value]> m)
  | JList _ | JDict _ => Raise (Exn TypeError ("unhashable type: '" +:+ type_name key +:+ "'"))
  | _ => Ok m
  end.

(** [v.lower()] *)
Definition py_lower (v : json) : result string :=
  match v with JStr s => Ok (lower s) | _ => Raise (no_attribute v "lower") end.

Fixpoint join_digit_items (l : list json) : result string :=
  match l with
  | [] => Ok ""
  | c :: l' =>
      match c with
      | JStr s =>
          r ← join_digit_items l';
          Ok (if str_isdigit s then s +:+ r else r)
      | _ => Raise (no_attribute c "isdigit")
      end
  end.

(** ["".join(c for c in v if c.isdigit())] *)
Definition py_join_digits (v : json) : result string :=
  match v with
  | JStr s => Ok (digits_of s)
  | _ => l ← py_iter v; join_digit_items l
  end.

Definition display_name (c : Contact) : string := first_name c +:+ " " +:+ last_name c.

Section Orchestrator.
Context {W : Type} `{!NotionClient W} `{!GoogleContactsClient W} `{!Clock W}.
Variable fromisoformat : string -> option datetime.

(** What a run threads: the syncer object, the world behind the
    clients, and the calls made so far (oldest first). *)
Record state := mkState { syncer : ContactSyncer; world : W; calls : list call }.

Definition M (A : Type) : Type := state -> result A * state.

#[local] Instance M_ret : MRet M := fun _ a σ => (Ok a, σ).
#[local] Instance M_bind : MBind M := fun _ _ f m σ =>
  match m σ with
  | (Ok a, σ') => f a σ'
  | (Raise e, σ') => (Raise e, σ')
  end.

Definition lift {A} (r : result A) : M A := fun σ => (r, σ).
Definition raise {A} (e : exn) : M A := fun σ => (Raise e, σ).

(** [try: body except Exception as e: handler e]; what the body did to
    the state before raising stays done. *)
Definition try_except {A} (body : M A) (handler : exn -> M A) : M A := fun σ =>
  match body σ with
  | (Ok a, σ') => (Ok a, σ')
  | (Raise e, σ') => handler e σ'
  end.

Definition get_self : M ContactSyncer := fun σ => (Ok (syncer σ), σ).
Definition modify_self (f : ContactSyncer -> ContactSyncer) : M unit := fun σ =>
  (Ok tt, mkState (f (syncer σ)) (world σ) (calls σ)).
Definition get_today : M date := fun σ => (Ok (clock_today (world σ)), σ).

(** A client call: logged, then run against the world. *)
Definition client_call {A} (c : call) (op : W -> result A * W) : M A := fun σ =>
  let '(r, w) := op (world σ) in
  (r, mkState (syncer σ) w (calls σ ++ [c])).

Definition query_database_all (database : string) : M (list json * option exn) :=
  client_call (QueryDatabaseAll database)
    (fun w => let '(r, w') := notion_query_database_all database w in (Ok r, w')).
Definition get_page (page_id : json) : M json :=
  client_call (GetPage page_id) (notion_get_page page_id).
Definition update_page (page_id properties : json) : M json :=
  client_call (UpdatePage page_id properties) (notion_update_page page_id properties).
Definition create_page (database : string) (properties : json) : M json :=
  client_call (CreatePage database properties) (notion_create_page database properties).
Definition get_contacts : M (list Contact) :=
  client_call GetContacts google_get_contacts.
Definition get_contact (resource_name : string) : M json :=
  client_call (GetContact resource_name) (google_get_contact resource_name).
Definition update_contact (resource_name : string) (contact : Contact) : M json :=
  client_call (UpdateContact resource_name contact)
    (google_update_contact resource_name contact).

Fixpoint for_each {A} (body : A -> M unit) (l : list A) : M unit :=
  match l with
  | [] => mret tt
  | x :: l' => _ ← body x; for_each body l'
  end.

(** ** [initialize] *)

(** [self._..._to_page_id[key] = page_id] *)
Definition store_google_id (key page_id : json) : M unit :=
  self ← get_self;
  m ← lift (dict_store key page_id (_google_id_to_page_id self));
  modify_self (set_google_index m).
Definition store_email (key : string) (page_id : json) : M unit :=
  modify_self (fun s => set_email_index (<[key := page_id]> (_email_to_page_id s)) s).
Definition store_phone (key : string) (page_id : json) : M unit :=
  modify_self (fun s => set_phone_index (<[key := page_id]> (_phone_to_page_id s)) s).
Definition store_name (key : string) (page_id : json) : M unit :=
  modify_self (fun s => set_name_index (<[key := page_id]> (_name_to_page_id s)) s).

(** Lines 53-56: the identity key of a page, when it has one. *)
Definition page_google_id (props : json) : result json :=
  google_id_prop ← py_get props "Google ID" (JDict []);
  rich_text ← py_get google_id_prop "rich_text" (JList []);
  if truthy rich_text then
    r0 ← py_index rich_text 0; py_get r0 "plain_text" (JStr "")
  else Ok JNull.

(** The body of the loop of [initialize]. *)
Definition index_page (page : json) : M unit :=
  page_id ← lift (py_getitem page "id");
  props ← lift (py_get page "properties" (JDict []));
  google_id ← lift (page_google_id props);
  _ ← (if truthy google_id then store_google_id google_id page_id else mret tt);
  primary_email_prop ← lift (py_get props "Primary Email" (JDict []));
  primary_email ← lift (py_get_none primary_email_prop "email");
  _ ← (if truthy primary_email then
         k ← lift (py_lower primary_email); store_email k page_id
       else mret tt);
  primary_phone_prop ← lift (py_get props "Primary Phone" (JDict []));
  primary_phone ← lift (py_get_none primary_phone_prop "phone_number");
  _ ← (if truthy primary_phone then
         normalized_phone ← lift (py_join_digits primary_phone);
         if str_truthy normalized_phone then store_phone normalized_phone page_id
         else mret tt
       else mret tt);
  first_name_prop ← lift (py_get props "First Name" (JDict []));
  first_name_list ← lift (py_get first_name_prop "title" (JList []));
  first_name ← lift (first_get first_name_list "plain_text" (JStr ""));
  last_name_prop ← lift (py_get props "Last Name" (JDict []));
  last_name_list ← lift (py_get last_name_prop "rich_text" (JList []));
  last_name ← lift (first_get last_name_list "plain_text" (JStr ""));
  if truthy first_name then
    f ← lift (py_lower first_name);
    l ← lift (py_lower last_name);
    let name_key := strip (f +:+ " " +:+ l) in
    if str_truthy name_key then store_name name_key page_id else mret tt
  else mret tt.

Definition reset_indexes (s : ContactSyncer) : ContactSyncer :=
  mkSyncer (database_id s) ∅ ∅ ∅ ∅.

Definition initialize : M unit :=
  _ ← modify_self reset_indexes;
  self ← get_self;
  '(pages, stop) ← query_database_all (database_id self);
  _ ← for_each index_page pages;
  match stop with
  | Some e => raise e
  | None => mret tt
  end.

(** ** [sync_contact_to_notion] *)

Definition sync_contact_to_notion (contact : Contact) : M (json * string) :=
  today ← get_today;
  let properties := to_notion_properties today contact in
  self ← get_self;
  let existing_page_id := _find_existing_page self contact in
  if truthy existing_page_id then
    _ ← update_page existing_page_id properties;
    _ ← (if str_truthy (google_id contact)
         then modify_self (fun s =>
                set_google_index
                  (<[google_id contact := existing_page_id]> (_google_id_to_page_id s)) s)
         else mret tt);
    mret (existing_page_id, "updated")
  else
    result ← create_page (database_id self) properties;
    new_page_id ← lift (py_getitem result "id");
    _ ← (if str_truthy (google_id contact)
         then modify_self (fun s =>
                set_google_index
                  (<[google_id contact := new_page_id]> (_google_id_to_page_id s)) s)
         else mret tt);
    _ ← (if ostr_truthy (primary_email contact)
         then store_email (lower (or_empty (primary_email contact))) new_page_id
         else mret tt);
    mret (new_page_id, "created").

(** ** [sync_from_google] *)

(** The [try] body of the loop, up to the action it reports. *)
Definition upsert_google_contact (contact : Contact) : M string :=
  self ← get_self;
  let existing_page_id := _find_existing_page self contact in
  contact ← (if truthy existing_page_id then
               page ← get_page existing_page_id;
               notion_contact ← lift (from_notion_page fromisoformat page);
               let contact := set_hide_birthday (hide_birthday notion_contact) contact in
               let contact := set_tags (tags notion_contact) contact in
               let contact := set_notes (notes notion_contact) contact in
               let contact := set_last_contacted (last_contacted notion_contact) contact in
               mret contact
             else mret contact);
  '(_, action) ← sync_contact_to_notion contact;
  mret action.

(** One turn of the loop.  The counters are the last thing the [try]
    body touches, so the handler sees the statistics as they were
    before the turn. *)
Definition sync_from_google_step (contact : Contact) (stats : SyncStats) : M SyncStats :=
  try_except
    (action ← upsert_google_contact contact;
     mret (if String.eqb action "created" then incr_created stats else incr_updated stats))
    (fun e =>
       let error_msg := "Failed to sync '" +:+ display_name contact +:+ "': " +:+ exn_msg e in
       mret (append_error error_msg stats)).

Fixpoint sync_from_google_loop (contacts : list Contact) (stats : SyncStats) : M SyncStats :=
  match contacts with
  | [] => mret stats
  | contact :: rest =>
      stats ← sync_from_google_step contact stats;
      sync_from_google_loop rest stats
  end.

Definition sync_from_google : M SyncStats :=
  let stats := new_stats in
  google_contacts ← get_contacts;
  sync_from_google_loop google_contacts stats.

(** ** [sync_to_google] *)

(** The inner [try] body: fetch, merge, compare, update. *)
Definition push_to_google (notion_contact : Contact) (stats : SyncStats) : M SyncStats :=
  google_person ← get_contact (google_id notion_contact);
  google_contact ← lift (from_google_api google_person);
  let merged_contact := _merge_contacts google_contact notion_contact in
  let google_data := to_google_person google_contact in
  let merged_data := to_google_person merged_contact in
  if negb (json_eqb (JDict google_data) (JDict merged_data)) then
    _ ← update_contact (google_id notion_contact) merged_contact;
    mret (incr_updated stats)
  else mret stats.

(** One turn of the loop, with its two handlers. *)
Definition sync_to_google_step (page : json) (stats : SyncStats) : M SyncStats :=
  try_except
    (notion_contact ← lift (from_notion_page fromisoformat page);
     if negb (str_truthy (google_id notion_contact)) then
       mret (incr_skipped stats)
     else
       try_except
         (push_to_google notion_contact stats)
         (fun e =>
            let error_msg :=
              "Failed to sync '" +:+ display_name notion_contact +:+ "' to Google: "
              +:+ exn_msg e in
            mret (append_error error_msg stats)))
    (fun e =>
       let error_msg := "Failed to process Notion page: " +:+ exn_msg e in
       mret (append_error error_msg stats)).

Fixpoint sync_to_google_loop (pages : list json) (stats : SyncStats) : M SyncStats :=
  match pages with
  | [] => mret stats
  | page :: rest =>
      stats ← sync_to_google_step page stats;
      sync_to_google_loop rest stats
  end.

Definition sync_to_google : M SyncStats :=
  let stats := new_stats in
  self ← get_self;
  '(notion_pages, stop) ← query_database_all (database_id self);
  _ ← (match stop with Some e => raise e | None => mret tt end);
  sync_to_google_loop notion_pages stats.

(** ** [full_sync] *)

Definition full_sync : M (SyncStats * SyncStats) :=
  _ ← initialize;
  google_stats ← sync_from_google;
  notion_stats ← sync_to_google;
  mret (google_stats, notion_stats).

(** The calls a computation adds to the log. *)
Definition new_calls (σ σ' : state) : list call := drop (length (calls σ)) (calls σ').
End Orchestrator.

Arguments state W : clear implicits.
Arguments M W A : clear implicits.

(** ** Records of a listing, as [initialize] and [sync_to_google] see them *)

(** The identity key and the local handle under which [initialize]
    registers a page: the key is [plain_text] of the first item of
    ["Google ID"], when that is a non-empty string. *)
Definition page_identity (page : json) : option (string * json) :=
  match py_getitem page "id", py_get page "properties" (JDict []) with
  | Ok page_id, Ok props =>
      match page_google_id props with
      | Ok (JStr k) => if str_truthy k then Some (k, page_id) else None
      | _ => None
      end
  | _, _ => None
  end.

(** How [sync_to_google] treats a page: it fails to parse, it parses to
    a contact without identity key, or to one with. *)
Inductive page_class :=
| Malformed (e : exn)
| Unkeyed (c : Contact)
| Keyed (c : Contact).

Definition classify (fromisoformat : string -> option datetime) (page : json) : page_class :=
  match from_notion_page fromisoformat page with
  | Raise e => Malformed e
  | Ok c => if str_truthy (google_id c) then Keyed c else Unkeyed c
  end.

Definition is_unkeyed (k : page_class) : bool :=
  match k with Unkeyed _ => true | _ => false end.

Definition keyed_name (k : page_class) : option string :=
  match k with Keyed c => Some (google_id c) | _ => None end.

(** The resource names of the fetches in a log. *)
Definition fetched_name (c : call) : option string :=
  match c with GetContact rn => Some rn | _ => None end.

(** * A small world to run the orchestrator in *)

(** [d[k] = v] *)
Fixpoint dict_set (k : string) (v : json) (d : list (string * json)) : list (string * json) :=
  match d with
  | [] => [(k, v)]
  | (k', v') :: d' => if String.eqb k k' then (k, v) :: d' else (k', v') :: dict_set k v d'
  end.

(** [d.update(e)] *)
Definition dict_update (d e : list (string * json)) : list (string * json) :=
  fold_left (fun acc kv => dict_set (fst kv) (snd kv) acc) e d.

Record ToyWorld := mkToy {
  toy_pages : list json;
  toy_people : list json;
  toy_next_id : nat;
  toy_today : date }.

(** What the database returns for a text item it was sent: the item with
    its [plain_text]. *)
Definition echo_text (item : json) : json :=
  match item with
  | JDict d =>
      match dict_lookup "text" d with
      | Some (JDict t) =>
          match dict_lookup "content" t with
          | Some c => JDict (d ++ [("plain_text", c)])
          | None => item
          end
      | _ => item
      end
  | _ => item
  end.

Definition echo_property (kv : string * json) : string * json :=
  match snd kv with
  | JDict [(ty, JList items)] =>
      if String.eqb ty "title" || String.eqb ty "rich_text"
      then (fst kv, JDict [(ty, JList (map echo_text items))])
      else kv
  | _ => kv
  end.

Definition echo_properties (properties : json) : json :=
  match properties with
  | JDict d => JDict (map echo_property d)
  | _ => properties
  end.

Definition has_id (page_id : json) (page : json) : bool :=
  match page with
  | JDict d => match dict_lookup "id" d with Some i => json_eqb i page_id | None => false end
  | _ => false
  end.

Definition not_found : exn := Exn NotionAPIError "Notion API error (404): not found".

Definition toy_get_page (page_id : json) (w : ToyWorld) : result json * ToyWorld :=
  match find (has_id page_id) (toy_pages w) with
  | Some p => (Ok p, w)
  | None => (Raise not_found, w)
  end.

Definition toy_update_page (page_id properties : json) (w : ToyWorld) : result json * ToyWorld :=
  match find (has_id page_id) (toy_pages w) with
  | Some _ =>
      let p' := JDict [("id", page_id); ("properties", echo_properties properties)] in
      (Ok p', mkToy (map (fun p => if has_id page_id p then p' else p) (toy_pages w))
                (toy_people w) (toy_next_id w) (toy_today w))
  | None => (Raise not_found, w)
  end.

Definition toy_create_page (database : string) (properties : json) (w : ToyWorld)
  : result json * ToyWorld :=
  let p := JDict [("id", JStr ("page-" +:+ nat_to_string (toy_next_id w)));
                  ("properties", echo_properties properties)] in
  (Ok p, mkToy (toy_pages w ++ [p]) (toy_people w) (S (toy_next_id w)) (toy_today w)).

(** Modelled from the spec: the structured database service of section 6,
    whose client (notion/client.py) is not among the sources: list all
    records, fetch one by its local handle, create a record from a full
    property bag, update the properties of an existing record. *)
#[global] Instance toy_notion : NotionClient ToyWorld := {
  notion_query_database_all := fun _ w => ((toy_pages w, None), w);
  notion_get_page := toy_get_page;
  notion_update_page := toy_update_page;
  notion_create_page := toy_create_page }.

Definition has_resource_name (rn : string) (person : json) : bool :=
  match person with
  | JDict d =>
      match dict_lookup "resourceName" d with
      | Some i => json_eqb i (JStr rn)
      | None => false
      end
  | _ => false
  end.

(** google/client.py, [get_contacts]: a person that fails to parse is skipped. *)
Fixpoint parse_connections (people : list json) : list Contact :=
  match people with
  | [] => []
  | person :: rest =>
      match from_google_api person with
      | Ok c => c :: parse_connections rest
      | Raise _ => parse_connections rest
      end
  end.

Definition toy_get_contact (rn : string) (w : ToyWorld) : result json * ToyWorld :=
  match find (has_resource_name rn) (toy_people w) with
  | Some p => (Ok p, w)
  | None => (Raise (Exn GoogleAPIError "Google People API error (404): not found"), w)
  end.

(** google/client.py, [update_contact]: the update mask names the fields
    present in [to_google_person]; the service replaces those and keeps
    the others. *)
Definition toy_update_contact (rn : string) (contact : Contact) (w : ToyWorld)
  : result json * ToyWorld :=
  match find (has_resource_name rn) (toy_people w) with
  | Some (JDict d) =>
      let p' := JDict (dict_update d (to_google_person contact)) in
      (Ok p', mkToy (toy_pages w)
                (map (fun p => if has_resource_name rn p then p' else p) (toy_people w))
                (toy_next_id w) (toy_today w))
  | _ => (Raise (Exn GoogleAPIError "Google People API error (404): not found"), w)
  end.

#[global] Instance toy_google : GoogleContactsClient ToyWorld := {
  google_get_contacts := fun w => (Ok (parse_connections (toy_people w)), w);
  google_get_contact := toy_get_contact;
  google_update_contact := toy_update_contact }.

#[global] Instance toy_clock : Clock ToyWorld := { clock_today := toy_today }.

Definition digit_value (a : ascii) : option Z :=
  if isdigit a then Some (Z.of_nat (nat_of_ascii a - 48)) else None.

Fixpoint digits_value (acc : Z) (l : list ascii) : option Z :=
  match l with
  | [] => Some acc
  | a :: l' => d ← digit_value a; digits_value (10 * acc + d) l'
  end.

(** A [fromisoformat] for the runs below: it accepts the date-only form
    [YYYY-MM-DD], one of the forms Python accepts. *)
Definition toy_fromisoformat (s : string) : option datetime :=
  match list_ascii_of_string s with
  | [y1; y2; y3; y4; "-"%char; m1; m2; "-"%char; d1; d2] =>
      y ← digits_value 0 [y1; y2; y3; y4];
      m ← digits_value 0 [m1; m2];
      d ← digits_value 0 [d1; d2];
      if valid_date y m d then Some (mkDatetime (mkDate y m d) 0 0 0 0) else None
  | _ => None
  end.

Definition toy_state (w : ToyWorld) : state ToyWorld :=
  mkState (mkSyncer "db" ∅ ∅ ∅ ∅) w [].

(** * What the program does, stated for the proofs *)

(** [if not a and b: a = b], the value of [a] afterwards. *)
Definition fill_gap (a b : option string) : option string :=
  if negb (ostr_truthy a) && ostr_truthy b then b else a.

(** The rule [_merge_contacts] follows, field by field: the names are
    the remote side's; any other field is the remote value when that is
    non-empty, else the database value when that is non-empty, else the
    (empty) remote value; the birth date is null when the database's
    suppress-birthday flag is set. *)
Definition merge_rule (f : synced_field) (g n : Contact) : field_value :=
  let fill :=
    if nonempty (field_get f g) then field_get f g
    else if nonempty (field_get f n) then field_get f n
    else field_get f g in
  match f with
  | F_first_name | F_last_name => field_get f g
  | F_birthday => if hide_birthday n then VOptDate None else fill
  | _ => fill
  end.

(** ** Sample records *)

Definition ann_google : Contact :=
  mkContact "people/c1" "Ann" "Lee" None None None (Some "ann@x.com") None None None
    (Some (mkDate 1990 1 15)) None None false [] None None None.

Definition ann_notion : Contact :=
  mkContact "people/c1" "Ann" "Lee" (Some "Acme") None None (Some "ann@work.example") None
    (Some "+1 555 0100") None (Some (mkDate 1990 1 15)) None None true ["friend"]
    (Some "met in Oslo") None None.

(** An address-book record without a name, and its database counterpart. *)
Definition nameless_google : Contact :=
  mkContact "people/c2" "" "" None None None (Some "") None None None None None None
    false [] None None None.

Definition named_notion : Contact :=
  mkContact "people/c2" "Bea" "Roy" None None None None None None None None None None
    false [] None None None.

(** ** The serialized person, entry by entry *)

(** [if cond: person[k] = v], as the entries it adds. *)
Definition entry (cond : bool) (k : string) (v : json) : list (string * json) :=
  if cond then [(k, v)] else [].

Definition typed_value (o : option string) (ty : string) : list json :=
  if ostr_truthy o then [JDict [("value", ostr_json o); ("type", JStr ty)]] else [].

Definition person_emails (c : Contact) : list json :=
  typed_value (primary_email c) "work" ++ typed_value (secondary_email c) "home".

Definition person_phones (c : Contact) : list json :=
  typed_value (primary_phone c) "mobile" ++ typed_value (secondary_phone c) "home".

Definition person_birthdays (c : Contact) : list (string * json) :=
  match birthday c with
  | Some b =>
      entry (negb (hide_birthday c)) "birthdays"
        (JList [JDict [("date", JDict [("year", JInt (year b));
                                       ("month", JInt (month b));
                                       ("day", JInt (day b))])]])
  | None => []
  end.

Definition person_entries (c : Contact) : list (string * json) :=
  entry (str_truthy (first_name c) || str_truthy (last_name c)) "names"
    (JList [JDict [("givenName", JStr (first_name c));
                   ("familyName", JStr (last_name c))]])
  ++ entry (truthy (JList (person_emails c))) "emailAddresses" (JList (person_emails c))
  ++ entry (truthy (JList (person_phones c))) "phoneNumbers" (JList (person_phones c))
  ++ person_birthdays c
  ++ entry (ostr_truthy (company c) || ostr_truthy (title c) || ostr_truthy (department c))
       "organizations"
       (JList [JDict [("name", JStr (or_empty (company c)));
                      ("title", JStr (or_empty (title c)));
                      ("department", JStr (or_empty (department c)))]])
  ++ entry (ostr_truthy (address c)) "addresses"
       (JList [JDict [("formattedValue", ostr_json (address c))]])
  ++ entry (ostr_truthy (website c)) "urls"
       (JList [JDict [("value", ostr_json (website c)); ("type", JStr "homepage")]]).

(** An address-book person whose birthday is the 30th of February. *)
Definition feb30_person : list (string * json) :=
  [("resourceName", JStr "people/c3");
   ("names", JList [JDict [("givenName", JStr "Cy"); ("familyName", JStr "Day")]]);
   ("birthdays", JList [JDict [("date", JDict [("month", JInt 2); ("day", JInt 30)])]])].

(** The same person with a month that does not fit a C [int], and with
    a year that came as text. *)
Definition wide_month_person : list (string * json) :=
  [("resourceName", JStr "people/c3");
   ("names", JList [JDict [("givenName", JStr "Cy"); ("familyName", JStr "Day")]]);
   ("birthdays",
    JList [JDict [("date", JDict [("month", JInt 2147483648); ("day", JInt 1)])]])].

Definition text_year_person : list (string * json) :=
  [("resourceName", JStr "people/c3");
   ("names", JList [JDict [("givenName", JStr "Cy"); ("familyName", JStr "Day")]]);
   ("birthdays",
    JList [JDict [("date", JDict [("year", JStr "1990"); ("month", JInt 2);
                                  ("day", JInt 30)])]])].

(** ** What one turn of each loop may do *)

(** The three messages the handlers build. *)
Definition upsert_error (c : Contact) (e : exn) : string :=
  "Failed to sync '" +:+ display_name c +:+ "': " +:+ exn_msg e.
Definition push_error (c : Contact) (e : exn) : string :=
  "Failed to sync '" +:+ display_name c +:+ "' to Google: " +:+ exn_msg e.
Definition page_error (e : exn) : string :=
  "Failed to process Notion page: " +:+ exn_msg e.

(** One turn of the loop of [sync_to_google] on a page of class [k]:
    the statistics before and after, and the calls it makes. *)
Definition to_google_outcome (k : page_class) (stats stats' : SyncStats) (l : list call) : Prop :=
  match k with
  | Malformed e => stats' = append_error (page_error e) stats /\ l = []
  | Unkeyed _ => stats' = incr_skipped stats /\ l = []
  | Keyed nc =>
      ((exists e, stats' = append_error (push_error nc e) stats)
       /\ l = [GetContact (google_id nc)])
      \/ (exists g, to_google_person g = to_google_person (_merge_contacts g nc)
                    /\ stats' = stats /\ l = [GetContact (google_id nc)])
      \/ (exists g, to_google_person g <> to_google_person (_merge_contacts g nc)
                    /\ l = [GetContact (google_id nc);
                            UpdateContact (google_id nc) (_merge_contacts g nc)]
                    /\ (stats' = incr_updated stats
                        \/ exists e, stats' = append_error (push_error nc e) stats))
  end.

Inductive to_google_run : list page_class -> SyncStats -> SyncStats -> list call -> Prop :=
| to_google_done stats : to_google_run [] stats stats []
| to_google_turn k ks stats stats1 stats2 l1 l2 :
    to_google_outcome k stats stats1 l1 ->
    to_google_run ks stats1 stats2 l2 ->
    to_google_run (k :: ks) stats stats2 (l1 ++ l2).

(** One turn of the loop of [sync_from_google] on [contact]: at most one
    fetch of the existing page, then at most one write; a turn counted as
    created or updated made its write. *)
Definition from_google_outcome (contact : Contact) (stats stats' : SyncStats) (l : list call)
  : Prop :=
  exists fetch write,
    l = fetch ++ write /\
    (fetch = [] \/ exists page_id, fetch = [GetPage page_id]) /\
    ((exists db props, write = [CreatePage db props] /\
        (stats' = incr_created stats
         \/ exists e, stats' = append_error (upsert_error contact e) stats))
     \/ (exists page_id props, write = [UpdatePage page_id props] /\
           (stats' = incr_updated stats
            \/ exists e, stats' = append_error (upsert_error contact e) stats))
     \/ (write = [] /\ exists e, stats' = append_error (upsert_error contact e) stats)).

Inductive from_google_run : list Contact -> SyncStats -> SyncStats -> list call -> Prop :=
| from_google_done stats : from_google_run [] stats stats []
| from_google_turn c cs stats stats1 stats2 l1 l2 :
    from_google_outcome c stats stats1 l1 ->
    from_google_run cs stats1 stats2 l2 ->
    from_google_run (c :: cs) stats stats2 (l1 ++ l2).

(** What a run of the database-to-remote loop leaves in the log and in
    the error list. *)
Definition justified_google_call (ks : list page_class) (c : call) : Prop :=
  exists nc, In (Keyed nc) ks /\
    (c = GetContact (google_id nc)
     \/ exists g, c = UpdateContact (google_id nc) (_merge_contacts g nc)
                  /\ to_google_person g <> to_google_person (_merge_contacts g nc)).

Definition to_google_error (ks : list page_class) (msg : string) : Prop :=
  (exists nc e, In (Keyed nc) ks /\ msg = push_error nc e)
  \/ (exists e, In (Malformed e) ks /\ msg = page_error e).

(** The calls that may appear in the log of [sync_to_google]: the
    listing, and address-book calls on a non-empty resource name. *)
Definition to_google_call_ok (c : call) : Prop :=
  match c with
  | QueryDatabaseAll _ => True
  | GetContact rn | UpdateContact rn _ => rn <> ""
  | _ => False
  end.

(** ** Sample worlds *)

(** A page entered by hand in the database: a name, no identity key. *)
Definition manual_page : json :=
  JDict [("id", JStr "page-7");
         ("properties",
          JDict [("First Name", JDict [("title", JList [JDict [("plain_text", JStr "Dov")]])]);
                 ("Google ID", JDict [("rich_text", JList [])])])].

Definition manual_world : ToyWorld := mkToy [manual_page] [] 8 (mkDate 2024 5 17).

(** What a run of the remote-to-database loop leaves in the error list. *)
Definition from_google_error (cs : list Contact) (msg : string) : Prop :=
  exists c e, In c cs /\ msg = upsert_error c e.

(** The address book of the specification's end-to-end example, and an
    empty database. *)
Definition ann_person : json :=
  JDict [("resourceName", JStr "people/c1");
         ("names", JList [JDict [("givenName", JStr "Ann")]]);
         ("emailAddresses", JList [JDict [("value", JStr "ann@x.com")]])].

Definition ann_world : ToyWorld := mkToy [] [ann_person] 0 (mkDate 2024 5 17).

(** A computation that calls no client and leaves the world alone. *)
Definition quiet {W A} (m : M W A) : Prop :=
  forall σ, calls (snd (m σ)) = calls σ /\ world (snd (m σ)) = world σ.

(** Two full passes in sequence over [ann_world]. *)
Definition first_pass := full_sync toy_fromisoformat (toy_state ann_world).
Definition second_pass := full_sync toy_fromisoformat (snd first_pass).

(** A computation that leaves the identity-key index as it is. *)
Definition keeps_google_index {W A} (m : M W A) : Prop :=
  forall σ, _google_id_to_page_id (syncer (snd (m σ))) = _google_id_to_page_id (syncer σ).

(** Two database pages that carry the same identity key. *)
Definition keyed_page (page_id key : string) : json :=
  JDict [("id", JStr page_id);
         ("properties",
          JDict [("Google ID", JDict [("rich_text", JList [JDict [("plain_text", JStr key)]])])])].

Definition twin_world : ToyWorld :=
  mkToy [keyed_page "page-1" "people/c1"; keyed_page "page-2" "people/c1"] []
    3 (mkDate 2024 5 17).

(** * google/client.py: the update request *)

(** [k in person] *)
Definition dict_has (k : string) (d : list (string * json)) : bool :=
  match dict_lookup k d with Some _ => true | None => false end.

(** Lines 288-303 of [update_contact]: the update mask. *)
Definition update_fields (person : list (string * json)) : list string :=
  let update_fields := [] in
  let update_fields :=
    if dict_has "names" person then update_fields ++ ["names"] else update_fields in
  let update_fields :=
    if dict_has "emailAddresses" person then update_fields ++ ["emailAddresses"]
    else update_fields in
  let update_fields :=
    if dict_has "phoneNumbers" person then update_fields ++ ["phoneNumbers"]
    else update_fields in
  let update_fields :=
    if dict_has "birthdays" person then update_fields ++ ["birthdays"] else update_fields in
  let update_fields :=
    if dict_has "organizations" person then update_fields ++ ["organizations"]
    else update_fields in
  let update_fields :=
    if dict_has "addresses" person then update_fields ++ ["addresses"] else update_fields in
  let update_fields :=
    if dict_has "urls" person then update_fields ++ ["urls"] else update_fields in
  update_fields.

(** [",".join(l)] *)
Fixpoint join_commas (l : list string) : string :=
  match l with
  | [] => ""
  | [x] => x
  | x :: l' => x +:+ "," +:+ join_commas l'
  end.

(** What [update_contact] hands to [_request]. *)
Record request := mkRequest {
  req_method : string;
  req_endpoint : string;
  req_params : list (string * string);
  req_json : list (string * json) }.

Definition update_contact_request (resource_name : string) (contact : Contact) : request :=
  let person := to_google_person contact in
  mkRequest "PATCH" ("/" +:+ resource_name +:+ ":updateContact")
    [("updatePersonFields", join_commas (update_fields person))] person.

(** * notion/schema.py and the [init-schema] command *)

Definition SCHEMA : list (string * json) :=
  [("First Name", JDict [("title", JDict [])]);
   ("Last Name", JDict [("rich_text", JDict [])]);
   ("Company", JDict [("rich_text", JDict [])]);
   ("Job Title", JDict [("rich_text", JDict [])]);
   ("Department", JDict [("rich_text", JDict [])]);
   ("Primary Email", JDict [("email", JDict [])]);
   ("Secondary Email", JDict [("email", JDict [])]);
   ("Primary Phone", JDict [("phone_number", JDict [])]);
   ("Secondary Phone", JDict [("phone_number", JDict [])]);
   ("Birthday", JDict [("date", JDict [])]);
   ("Address", JDict [("rich_text", JDict [])]);
   ("Website", JDict [("url", JDict [])]);
   ("Hide Birthday", JDict [("checkbox", JDict [])]);
   ("Tags", JDict [("multi_select", JDict [("options", JList [])])]);
   ("Notes", JDict [("rich_text", JDict [])]);
   ("Last Contacted", JDict [("date", JDict [])]);
   ("Google ID", JDict [("rich_text", JDict [])]);
   ("Last Synced", JDict [("date", JDict [])])].

(** The type of a property object: its one key. *)
Definition property_type (v : json) : option string :=
  match v with
  | JDict [(ty, _)] => Some ty
  | _ => None
  end.

Definition property_types (d : list (string * json)) : list (string * option string) :=
  map (fun kv => (fst kv, property_type (snd kv))) d.

(** cli.py, [init_schema]:
    [{k: v for k, v in SCHEMA.items() if k not in existing_props}] *)
Definition missing_props (existing_props : list string) : list (string * json) :=
  List.filter (fun kv => negb (existsb (String.eqb (fst kv)) existing_props)) SCHEMA.

(** * cli.py: the summary of errors *)

(** [errors[:5]], one line each, then the count of the rest. *)
Definition error_details (errors : list string) : list string :=
  match errors with
  | [] => []
  | _ =>
      ["
  Error details:"]
      ++ map (fun error => "    - " +:+ error) (take 5 errors)
      ++ (if (5 <? length errors)%nat
          then ["    ... and " +:+ nat_to_string (length errors - 5) +:+ " more"]
          else [])
  end.

(** A database record that has nothing to add to [ann_google]. *)
Definition blank_notion : Contact :=
  mkContact "people/c1" "Ann" "Lee" None None None (Some "other@x.com") None None None
    None None None false ["friend"] (Some "note") None None.

(** * The address-book form of a contact, parsed back *)

(** [a] when non-empty, else [b] when non-empty, else [None]. *)
Definition first_truthy (a b : option string) : option string :=
  if ostr_truthy a then a else if ostr_truthy b then b else None.

(** [b] when both are non-empty, else [None]. *)
Definition second_truthy (a b : option string) : option string :=
  if ostr_truthy a && ostr_truthy b then b else None.

(** A [date] object is a valid date: [date(y, m, d)] builds no other. *)
Definition birthday_valid (c : Contact) : bool :=
  match birthday c with
  | Some b => valid_date (year b) (month b) (day b)
  | None => true
  end.

(** What [from_google_api] makes of [to_google_person c]. *)
Definition reparsed (c : Contact) : Contact :=
  let org := ostr_truthy (company c) || ostr_truthy (title c) || ostr_truthy (department c) in
  mkContact "" (first_name c) (last_name c)
    (if org then Some (or_empty (company c)) else None)
    (if org then Some (or_empty (title c)) else None)
    (if org then Some (or_empty (department c)) else None)
    (first_truthy (primary_email c) (secondary_email c))
    (second_truthy (primary_email c) (secondary_email c))
    (first_truthy (primary_phone c) (secondary_phone c))
    (second_truthy (primary_phone c) (secondary_phone c))
    (if hide_birthday c then None else birthday c)
    (if ostr_truthy (address c) then address c else None)
    (if ostr_truthy (website c) then website c else None)
    false [] None None None.

(** A contact with a secondary e-mail address only. *)
Definition home_only : Contact :=
  mkContact "people/c4" "Eve" "" None None None None (Some "eve@home.example") None None
    None None None false [] None None None.

(** * The two loops, turn by turn *)

Section Turns.
Context {W : Type} `{!NotionClient W} `{!GoogleContactsClient W} `{!Clock W}.
Variable fromisoformat : string -> option datetime.

(** One turn of the loop of [sync_from_google] on [contact], started with
    the statistics [stats] in the state [σ]: the [try] body returned an
    action and the turn is counted, or the body raised [e] and the turn
    leaves the one message of the handler.  The state after the turn is
    the one the body left. *)
Inductive from_google_at (contact : Contact) (stats : SyncStats) (σ : state W)
  : SyncStats -> state W -> Prop :=
| at_created σ' :
    upsert_google_contact fromisoformat contact σ = (Ok "created", σ') ->
    from_google_at contact stats σ (incr_created stats) σ'
| at_updated σ' :
    upsert_google_contact fromisoformat contact σ = (Ok "updated", σ') ->
    from_google_at contact stats σ (incr_updated stats) σ'
| at_failed e σ' :
    upsert_google_contact fromisoformat contact σ = (Raise e, σ') ->
    from_google_at contact stats σ (append_error (upsert_error contact e) stats) σ'.

(** One turn of the loop of [sync_to_google] on [page], started with the
    statistics [stats] in the state [σ].  The page does not parse; or it
    parses to a record without identity key; or the record [nc] has a
    key and the address book is asked for it, in the world of [σ]: the
    fetch fails, or its answer [gp] does not parse, or it parses to [g]
    and the serialized forms of [g] and of the merged record are equal
    (no update is sent) or differ (the merged record is sent, and the
    update succeeds or fails).  Every failure leaves one message. *)
Inductive to_google_at (page : json) (stats : SyncStats) (σ : state W)
  : SyncStats -> state W -> Prop :=
| at_malformed e :
    from_notion_page fromisoformat page = Raise e ->
    to_google_at page stats σ (append_error (page_error e) stats) σ
| at_unkeyed nc :
    from_notion_page fromisoformat page = Ok nc ->
    google_id nc = "" ->
    to_google_at page stats σ (incr_skipped stats) σ
| at_fetch_failed nc e w :
    from_notion_page fromisoformat page = Ok nc ->
    google_id nc <> "" ->
    google_get_contact (google_id nc) (world σ) = (Raise e, w) ->
    to_google_at page stats σ (append_error (push_error nc e) stats)
      (mkState (syncer σ) w (calls σ ++ [GetContact (google_id nc)]))
| at_answer_malformed nc gp e w :
    from_notion_page fromisoformat page = Ok nc ->
    google_id nc <> "" ->
    google_get_contact (google_id nc) (world σ) = (Ok gp, w) ->
    from_google_api gp = Raise e ->
    to_google_at page stats σ (append_error (push_error nc e) stats)
      (mkState (syncer σ) w (calls σ ++ [GetContact (google_id nc)]))
| at_unchanged nc gp g w :
    from_notion_page fromisoformat page = Ok nc ->
    google_id nc <> "" ->
    google_get_contact (google_id nc) (world σ) = (Ok gp, w) ->
    from_google_api gp = Ok g ->
    to_google_person g = to_google_person (_merge_contacts g nc) ->
    to_google_at page stats σ stats
      (mkState (syncer σ) w (calls σ ++ [GetContact (google_id nc)]))
| at_pushed nc gp g w r w' :
    from_notion_page fromisoformat page = Ok nc ->
    google_id nc <> "" ->
    google_get_contact (google_id nc) (world σ) = (Ok gp, w) ->
    from_google_api gp = Ok g ->
    to_google_person g <> to_google_person (_merge_contacts g nc) ->
    google_update_contact (google_id nc) (_merge_contacts g nc) w = (Ok r, w') ->
    to_google_at page stats σ (incr_updated stats)
      (mkState (syncer σ) w'
         (calls σ ++ [GetContact (google_id nc);
                      UpdateContact (google_id nc) (_merge_contacts g nc)]))
| at_push_failed nc gp g w e w' :
    from_notion_page fromisoformat page = Ok nc ->
    google_id nc <> "" ->
    google_get_contact (google_id nc) (world σ) = (Ok gp, w) ->
    from_google_api gp = Ok g ->
    to_google_person g <> to_google_person (_merge_contacts g nc) ->
    google_update_contact (google_id nc) (_merge_contacts g nc) w = (Raise e, w') ->
    to_google_at page stats σ (append_error (push_error nc e) stats)
      (mkState (syncer σ) w'
         (calls σ ++ [GetContact (google_id nc);
                      UpdateContact (google_id nc) (_merge_contacts g nc)])).

(** The turns of a loop over a list, each started where the one before
    it ended. *)
Inductive turns {A : Type}
    (turn : A -> SyncStats -> state W -> SyncStats -> state W -> Prop)
  : list A -> SyncStats -> state W -> SyncStats -> state W -> Prop :=
| turns_done stats σ : turns turn [] stats σ stats σ
| turns_next x l stats σ stats1 σ1 stats2 σ2 :
    turn x stats σ stats1 σ1 ->
    turns turn l stats1 σ1 stats2 σ2 ->
    turns turn (x :: l) stats σ stats2 σ2.

(** The state in which a loop starts: the listing call [c] has been
    logged and has left the world [w]. *)
Definition after_listing (σ : state W) (c : call) (w : W) : state W :=
  mkState (syncer σ) w (calls σ ++ [c]).
End Turns.

(** A database page that [initialize] indexes and [from_notion_page]
    rejects: its ["Company"] property is null.  The names are there to
    be read. *)
Definition null_company_page : json :=
  JDict [("id", JStr "page-9");
         ("properties",
          JDict [("First Name", JDict [("title", JList [JDict [("plain_text", JStr "Ann")]])]);
                 ("Last Name", JDict [("rich_text", JList [JDict [("plain_text", JStr "Lee")]])]);
                 ("Company", JNull);
                 ("Google ID",
                  JDict [("rich_text", JList [JDict [("plain_text", JStr "people/c9")]])])])].

Definition null_company_world : ToyWorld :=
  mkToy [null_company_page] [] 10 (mkDate 2024 5 17).

(** An address-book person with a birthday, and the database page of the
    same person with the suppress-birthday box checked. *)
Definition dana_person : json :=
  JDict [("resourceName", JStr "people/c5");
         ("names", JList [JDict [("givenName", JStr "Dana"); ("familyName", JStr "Kim")]]);
         ("birthdays",
          JList [JDict [("date", JDict [("year", JInt 1990); ("month", JInt 1);
                                        ("day", JInt 15)])]])].

Definition dana_page : json :=
  JDict [("id", JStr "page-5");
         ("properties",
          JDict [("First Name", JDict [("title", JList [JDict [("plain_text", JStr "Dana")]])]);
                 ("Last Name", JDict [("rich_text", JList [JDict [("plain_text", JStr "Kim")]])]);
                 ("Hide Birthday", JDict [("checkbox", JBool true)]);
                 ("Google ID",
                  JDict [("rich_text", JList [JDict [("plain_text", JStr "people/c5")]])])])].

Definition dana_world : ToyWorld := mkToy [dana_page] [dana_person] 6 (mkDate 2024 5 17).

(** Two full passes in sequence over [dana_world]. *)
Definition dana_first_pass := full_sync toy_fromisoformat (toy_state dana_world).
Definition dana_second_pass := full_sync toy_fromisoformat (snd dana_first_pass).

(* BEGIN PROPERTIES *)

(** * Properties *)

(** ** Results, strings, dictionaries *)

Lemma if_same {A} (c : bool) (a : A) : (if c then a else a) = a.
Proof. by destruct c. Qed.

Lemma str_truthy_empty s : str_truthy s = false <-> s = "".
Proof.
  unfold str_truthy. destruct (String.eqb_spec s ""); simpl; split; congruence.
Qed.

Lemma str_truthy_nonempty s : str_truthy s = true <-> s <> "".
Proof.
  unfold str_truthy. destruct (String.eqb_spec s ""); simpl; split; congruence.
Qed.

(** ** The merge policy *)

Section MergeSteps.
Variables (c : bool) (m : Contact).

Lemma step_primary_email v :
  (if c then set_primary_email v m else m)
  = set_primary_email (if c then v else primary_email m) m.
Proof using Type. destruct c, m; reflexivity. Qed.

Lemma step_secondary_email v :
  (if c then set_secondary_email v m else m)
  = set_secondary_email (if c then v else secondary_email m) m.
Proof using Type. destruct c, m; reflexivity. Qed.

Lemma step_primary_phone v :
  (if c then set_primary_phone v m else m)
  = set_primary_phone (if c then v else primary_phone m) m.
Proof using Type. destruct c, m; reflexivity. Qed.

Lemma step_secondary_phone v :
  (if c then set_secondary_phone v m else m)
  = set_secondary_phone (if c then v else secondary_phone m) m.
Proof using Type. destruct c, m; reflexivity. Qed.

Lemma step_birthday v :
  (if c then set_birthday v m else m)
  = set_birthday (if c then v else birthday m) m.
Proof using Type. destruct c, m; reflexivity. Qed.

Lemma step_company v :
  (if c then set_company v m else m)
  = set_company (if c then v else company m) m.
Proof using Type. destruct c, m; reflexivity. Qed.

Lemma step_title v :
  (if c then set_title v m else m)
  = set_title (if c then v else title m) m.
Proof using Type. destruct c, m; reflexivity. Qed.

Lemma step_department v :
  (if c then set_department v m else m)
  = set_department (if c then v else department m) m.
Proof using Type. destruct c, m; reflexivity. Qed.

Lemma step_address v :
  (if c then set_address v m else m)
  = set_address (if c then v else address m) m.
Proof using Type. destruct c, m; reflexivity. Qed.

Lemma step_website v :
  (if c then set_website v m else m)
  = set_website (if c then v else website m) m.
Proof using Type. destruct c, m; reflexivity. Qed.
End MergeSteps.

(** One assignment after the other: name the value the next [let] binds,
    bring it into constructor form, and go on. *)
Ltac merge_step :=
  lazymatch goal with
  | |- (let x := ?a in @?f x) = ?r =>
      let m := fresh "merged" in
      let E := fresh "E" in
      change (let x := a in f x = r); cbv beta;
      intros m;
      assert (E : m = a) by reflexivity;
      clearbody m;
      rewrite ?step_primary_email, ?step_secondary_email, ?step_primary_phone,
        ?step_secondary_phone, ?step_birthday, ?step_company, ?step_title,
        ?step_department, ?step_address, ?step_website in E;
      cbn [set_primary_email set_secondary_email set_primary_phone set_secondary_phone
           set_birthday set_company set_title set_department set_address set_website
           google_id first_name last_name company title department primary_email
           secondary_email primary_phone secondary_phone birthday address website
           hide_birthday tags notes last_contacted last_synced_at] in E;
      subst m
  end.

(** The record [_merge_contacts] returns, written out. *)
Lemma merge_eq (g n : Contact) :
  _merge_contacts g n =
  mkContact (google_id g) (first_name g) (last_name g)
    (fill_gap (company g) (company n))
    (fill_gap (title g) (title n))
    (fill_gap (department g) (department n))
    (fill_gap (primary_email g) (primary_email n))
    (fill_gap (secondary_email g) (secondary_email n))
    (fill_gap (primary_phone g) (primary_phone n))
    (fill_gap (secondary_phone g) (secondary_phone n))
    (if hide_birthday n then None
     else if negb (odate_truthy (birthday g)) && odate_truthy (birthday n)
          then birthday n else birthday g)
    (fill_gap (address g) (address n))
    (fill_gap (website g) (website n))
    (hide_birthday g) (tags g) (notes g) (last_contacted g) (last_synced_at g).
Proof.
  destruct g as [g1 g2 g3 g4 g5 g6 g7 g8 g9 g10 g11 g12 g13 g14 g15 g16 g17 g18].
  destruct n as [n1 n2 n3 n4 n5 n6 n7 n8 n9 n10 n11 n12 n13 n14 n15 n16 n17 n18].
  cbv beta delta [_merge_contacts].
  repeat merge_step.
  unfold fill_gap; cbn. f_equal.
  destruct n14; [reflexivity|]. cbn. by rewrite andb_true_r.
Qed.

(** C1: when the database record's hide_birthday flag is set, the record
    [_merge_contacts] returns has no birthday, whatever the birthdays of the
    two inputs are. *)
Theorem merge_hide_birthday_null (google_contact notion_contact : Contact) :
  hide_birthday notion_contact = true ->
  birthday (_merge_contacts google_contact notion_contact) = None.
Proof.
  intros Hhide. rewrite merge_eq. cbn. by rewrite Hhide.
Qed.

Lemma merge_hide_birthday_null_witness :
  is_Some (birthday ann_google) /\ is_Some (birthday ann_notion) /\
  birthday (_merge_contacts ann_google ann_notion) = None.
Proof.
  split; [by eexists|]. split; [by eexists|].
  apply (merge_hide_birthday_null ann_google ann_notion). reflexivity.
Defined.

(** C2: the code departs from the claim, and from the rule its own
    docstring gives (lines 219-220: "If Google field is empty but Notion
    has data: use Notion's value"), on the two names.  Merging an
    address-book record without names with the database record of
    "Bea Roy" returns a record whose names are still empty, where the
    rule asks for the database's names; the ten other synced fields are
    filled. *)
Theorem merge_leaves_names_empty :
  first_name nameless_google = "" /\ last_name nameless_google = ""
  /\ first_name named_notion = "Bea" /\ last_name named_notion = "Roy"
  /\ first_name (_merge_contacts nameless_google named_notion) = ""
  /\ last_name (_merge_contacts nameless_google named_notion) = ""
  /\ spec_merge_rule F_first_name nameless_google named_notion = VStr "Bea"
  /\ spec_merge_rule F_last_name nameless_google named_notion = VStr "Roy"
  /\ field_get F_first_name (_merge_contacts nameless_google named_notion)
     <> spec_merge_rule F_first_name nameless_google named_notion
  /\ field_get F_last_name (_merge_contacts nameless_google named_notion)
     <> spec_merge_rule F_last_name nameless_google named_notion.
Proof. repeat split; vm_compute; (reflexivity || discriminate). Qed.

Lemma fill_gap_rule (a b : option string) :
  fill_gap a b = if ostr_truthy a then a else if ostr_truthy b then b else a.
Proof. unfold fill_gap. by destruct (ostr_truthy a), (ostr_truthy b). Qed.

(** X16: what the code does, field by field: every synced field of the
    merged record follows [merge_rule].  The two names are the address book's;
    each other field is the address book's value when non-empty, else the
    database's value when that is non-empty, else the address book's
    (empty) value; the birthday is null when the database's hide_birthday
    flag is set. *)
Lemma merge_follows_rule (f : synced_field) (g n : Contact) :
  field_get f (_merge_contacts g n) = merge_rule f g n.
Proof.
  rewrite merge_eq.
  destruct f; cbn; rewrite ?fill_gap_rule; try reflexivity;
    try (by destruct (ostr_truthy _); [|destruct (ostr_truthy _)]).
  destruct (hide_birthday n); [reflexivity|].
  by destruct (birthday g), (birthday n).
Qed.

(** C3, as stated, fails: a record with the flag set and a birthday loses
    the birthday when merged with itself. *)
Lemma merge_self_counterexample : _merge_contacts ann_notion ann_notion <> ann_notion.
Proof. vm_compute. discriminate. Qed.

(** C3, amended: merging a record with itself returns it unchanged, except
    that the birthday is null when its hide_birthday flag is set. *)
Theorem merge_self (c : Contact) :
  _merge_contacts c c = if hide_birthday c then set_birthday None c else c.
Proof.
  rewrite merge_eq. rewrite !fill_gap_rule, !if_same.
  destruct c as [c1 c2 c3 c4 c5 c6 c7 c8 c9 c10 c11 c12 c13 c14 c15 c16 c17 c18]; cbn.
  destruct c14; cbn; [reflexivity|].
  by destruct c11.
Qed.

(** C10: the merged record takes its identity key, names, database-only
    attributes and sync timestamp from the address-book record. *)
Theorem merge_frame (google_contact notion_contact : Contact) :
  let merged := _merge_contacts google_contact notion_contact in
  google_id merged = google_id google_contact /\
  first_name merged = first_name google_contact /\
  last_name merged = last_name google_contact /\
  hide_birthday merged = hide_birthday google_contact /\
  tags merged = tags google_contact /\
  notes merged = notes google_contact /\
  last_contacted merged = last_contacted google_contact /\
  last_synced_at merged = last_synced_at google_contact.
Proof. cbv zeta. rewrite merge_eq. cbn. repeat split. Qed.

(** ** [to_google_person] *)

Lemma if_app {A} (c : bool) (l x : list A) :
  (if c then l ++ x else l) = l ++ (if c then x else []).
Proof. destruct c; [reflexivity | by rewrite app_nil_r]. Qed.

(** The dictionary [to_google_person] builds is the list of its entries,
    in the order of the assignments. *)
Lemma to_google_person_entries (c : Contact) : to_google_person c = person_entries c.
Proof.
  unfold to_google_person, person_entries, person_birthdays, person_emails,
    person_phones, typed_value, entry, dict_add.
  rewrite !if_app. cbn [app].
  destruct (birthday c) as [b|]; [rewrite if_app|]; cbn [app];
    rewrite ?app_nil_r, <- ?app_assoc; reflexivity.
Qed.

Lemma dict_lookup_key k d v : dict_lookup k d = Some v -> In k (dict_keys d).
Proof.
  induction d as [|[k' v'] d IH]; cbn; [discriminate|].
  destruct (String.eqb_spec k k') as [->|]; [by left | intros; right; auto].
Qed.

Lemma dict_lookup_not_key k d : ~ In k (dict_keys d) -> dict_lookup k d = None.
Proof.
  intros Hk. destruct (dict_lookup k d) eqn:E; [|reflexivity].
  by apply dict_lookup_key in E.
Qed.

Lemma dict_lookup_delete_eq k d : dict_lookup k (dict_delete k d) = None.
Proof.
  induction d as [|[k' v'] d IH]; cbn; [reflexivity|].
  destruct (String.eqb_spec k k') as [->|Hne]; [exact IH|].
  cbn. destruct (String.eqb_spec k k'); [contradiction | exact IH].
Qed.

Lemma dict_lookup_delete_ne k k' d :
  k <> k' -> dict_lookup k (dict_delete k' d) = dict_lookup k d.
Proof.
  intros Hne. induction d as [|[k0 v0] d IH]; cbn; [reflexivity|].
  destruct (String.eqb_spec k' k0) as [->|Hne'].
  - destruct (String.eqb_spec k k0); [contradiction | exact IH].
  - cbn. by rewrite IH.
Qed.

Lemma dict_delete_app k d e : dict_delete k (d ++ e) = dict_delete k d ++ dict_delete k e.
Proof.
  induction d as [|[k' v'] d IH]; cbn; [reflexivity|].
  destruct (String.eqb k k'); cbn; by rewrite IH.
Qed.

Lemma entry_keys cond k v k' : In k' (dict_keys (entry cond k v)) -> k' = k.
Proof. destruct cond; cbn; [intros [<-|[]]; reflexivity | intros []]. Qed.

Lemma person_birthdays_keys c k : In k (dict_keys (person_birthdays c)) -> k = "birthdays".
Proof.
  unfold person_birthdays. destruct (birthday c); [apply entry_keys | intros []].
Qed.

Lemma person_entries_keys c k :
  In k (dict_keys (person_entries c)) -> In k google_person_keys.
Proof.
  unfold person_entries, dict_keys. rewrite !map_app, !in_app_iff.
  intros H; repeat destruct H as [H|H];
    first [apply entry_keys in H | apply person_birthdays_keys in H];
    subst k; cbn; tauto.
Qed.

(** C5: the dictionary [to_google_person] returns has only address-book
    keys and none of the database-only attributes; it does not depend on
    the tags, the notes or the last-contacted date; the hide_birthday flag
    shows only as the absence of the birthdays entry; with the flag set
    there is no birthdays entry, and the contact object is as it was. *)
Theorem to_google_person_database_only (c : Contact) :
  (forall k, In k (dict_keys (to_google_person c)) -> In k google_person_keys) /\
  (forall k, In k database_only_names -> dict_lookup k (to_google_person c) = None) /\
  (forall t n l,
     to_google_person (set_tags t (set_notes n (set_last_contacted l c)))
     = to_google_person c) /\
  to_google_person (set_hide_birthday true c)
  = dict_delete "birthdays" (to_google_person (set_hide_birthday false c)) /\
  (hide_birthday c = true ->
   dict_lookup "birthdays" (to_google_person c) = None /\
   snd (call_to_google_person c) = c).
Proof.
  split; [|split; [|split; [|split]]].
  - intros k. rewrite to_google_person_entries. apply person_entries_keys.
  - intros k Hk. apply dict_lookup_not_key. intros Hin.
    rewrite to_google_person_entries in Hin. apply person_entries_keys in Hin.
    cbn in Hk, Hin.
    repeat destruct Hk as [Hk|Hk]; try contradiction; subst k;
      repeat destruct Hin as [Hin|Hin]; try discriminate; contradiction.
  - intros t n l. reflexivity.
  - rewrite !to_google_person_entries.
    unfold person_entries, person_birthdays, person_emails, person_phones.
    cbn [first_name last_name company title department primary_email secondary_email
         primary_phone secondary_phone birthday address website hide_birthday
         set_hide_birthday person_emails person_phones negb].
    rewrite !dict_delete_app.
    unfold entry.
    repeat match goal with
           | |- context [dict_delete _ (if ?b then _ else _)] => destruct b
           end; destruct (birthday c); reflexivity.
  - intros Hhide. split; [|reflexivity].
    apply dict_lookup_not_key. intros Hin.
    rewrite to_google_person_entries in Hin.
    unfold person_entries, person_birthdays, dict_keys in Hin.
    rewrite Hhide in Hin. rewrite !map_app, !in_app_iff in Hin.
    repeat destruct Hin as [Hin|Hin];
      try (apply entry_keys in Hin; discriminate).
    destruct (birthday c); destruct Hin.
Qed.

Lemma to_google_person_database_only_witness :
  hide_birthday ann_notion = true /\
  is_Some (birthday ann_notion) /\
  dict_lookup "birthdays" (to_google_person ann_notion) = None /\
  snd (call_to_google_person ann_notion) = ann_notion.
Proof.
  split; [reflexivity|]. split; [by eexists|].
  apply (to_google_person_database_only ann_notion). reflexivity.
Defined.

(** ** [from_google_api] *)

Lemma bind_Ok {A B} (m : result A) (f : A -> result B) (b : B) :
  m ≫= f = Ok b -> exists a, m = Ok a /\ f a = Ok b.
Proof. destruct m as [a|e]; cbn; [eauto | discriminate]. Qed.

Ltac invert_binds H :=
  repeat (let a := fresh "v" in
          let E := fresh "E" in
          apply bind_Ok in H as (a & E & H)).

(** The birthday of the parsed contact is what the birthday block yields. *)
Lemma from_google_api_birthday person c :
  from_google_api person = Ok c -> google_birthday person = Ok (birthday c).
Proof.
  unfold from_google_api. intros H. invert_binds H.
  injection H as <-. cbn. assumption.
Qed.

Lemma google_birthday_absent person :
  dict_lookup "birthdays" person = None -> google_birthday (JDict person) = Ok None.
Proof. intros H. unfold google_birthday. cbn. by rewrite H. Qed.

(** [date] on three C [int]s returns exactly on the valid dates, and
    raises [ValueError] on the others. *)
Lemma date_new_valid y m d : valid_date y m d = true -> date_new y m d = Ok (mkDate y m d).
Proof.
  unfold valid_date, date_new. rewrite !andb_true_iff.
  intros (((((-> & ->) & ->) & ->) & ->) & ->). reflexivity.
Qed.

Lemma date_new_invalid y m d :
  valid_date y m d = false -> exists msg, date_new y m d = Raise (Exn ValueError msg).
Proof.
  unfold valid_date, date_new.
  destruct (1 <=? y)%Z, (y <=? 9999)%Z, (1 <=? m)%Z, (m <=? 12)%Z, (1 <=? d)%Z,
    (d <=? days_in_month y m)%Z; cbn [andb negb]; intros H; try discriminate; eauto.
Qed.

Lemma c_int_in_range (n : Z) :
  (INT_MIN <= n <= INT_MAX)%Z -> c_int (JInt n) = Ok n.
Proof.
  unfold INT_MIN, INT_MAX. intros Hn. unfold c_int, as_int, LONG_MIN, LONG_MAX, INT_MIN, INT_MAX.
  cbn.
  destruct (Z.ltb_spec n (-9223372036854775808)); [lia|].
  destruct (Z.ltb_spec 9223372036854775807 n); [lia|]. cbn.
  destruct (Z.ltb_spec 2147483647 n); [lia|].
  destruct (Z.ltb_spec n (-2147483648)); [lia|]. reflexivity.
Qed.

Lemma google_birthday_invalid person b rest bd y m d :
  dict_lookup "birthdays" person = Some (JList (b :: rest)) ->
  py_get b "date" (JDict []) = Ok (JDict bd) ->
  c_int (default (JInt 1900) (dict_lookup "year" bd)) = Ok y ->
  dict_lookup "month" bd = Some (JInt m) -> (INT_MIN <= m <= INT_MAX)%Z ->
  dict_lookup "day" bd = Some (JInt d) -> (INT_MIN <= d <= INT_MAX)%Z ->
  valid_date y m d = false ->
  google_birthday (JDict person) = Ok None.
Proof.
  intros Hb Hdate Hy Hm Hmr Hd Hdr Hinvalid. unfold google_birthday. cbn.
  rewrite Hb. cbn. rewrite Hdate. cbn. rewrite Hm, Hd. cbn.
  destruct (negb (m =? 0)%Z && negb (d =? 0)%Z); [|reflexivity].
  unfold py_date. rewrite Hy, !c_int_in_range by assumption. cbn.
  destruct (date_new_invalid _ _ _ Hinvalid) as [msg ->]. reflexivity.
Qed.

(** Only the birthday block reads the ["birthdays"] entry. *)
Lemma from_google_api_without_birthdays person :
  google_birthday (JDict person) = Ok None ->
  from_google_api (JDict person) = from_google_api (JDict (dict_delete "birthdays" person)).
Proof.
  intros Hb. unfold from_google_api.
  rewrite Hb, (google_birthday_absent (dict_delete "birthdays" person))
    by apply dict_lookup_delete_eq.
  cbn [py_get]. by rewrite !dict_lookup_delete_ne by discriminate.
Qed.

(** C9, as stated, fails: a month that does not fit a C [int] makes
    [date] raise [OverflowError], and a year that came as text makes it
    raise [TypeError]; the handler catches [ValueError] only, so
    [from_google_api] raises, though neither month and day pair forms a
    calendar date and the person without the birthday parses. *)
Lemma from_google_api_birthday_raises :
  from_google_api (JDict wide_month_person)
  = Raise (Exn OverflowError "signed integer is greater than maximum")
  /\ from_google_api (JDict text_year_person)
     = Raise (Exn TypeError "'str' object cannot be interpreted as an integer")
  /\ valid_date 1900 2147483648 1 = false
  /\ valid_date 1990 2 30 = false
  /\ is_ok (from_google_api (JDict (dict_delete "birthdays" wide_month_person))) = true.
Proof. repeat split; vm_compute; reflexivity. Qed.

(** C9, amended: a person whose first birthday entry carries a year
    (1900 when absent), a month and a day that are integers of the range
    of a C [int] and that [date(year, month, day)] rejects parses exactly
    as the same person without birthdays does: no exception from the
    birthday, and a contact whose birthday is null. *)
Theorem from_google_api_invalid_birthday person b rest bd y m d c :
  dict_lookup "birthdays" person = Some (JList (b :: rest)) ->
  py_get b "date" (JDict []) = Ok (JDict bd) ->
  c_int (default (JInt 1900) (dict_lookup "year" bd)) = Ok y ->
  dict_lookup "month" bd = Some (JInt m) -> (INT_MIN <= m <= INT_MAX)%Z ->
  dict_lookup "day" bd = Some (JInt d) -> (INT_MIN <= d <= INT_MAX)%Z ->
  valid_date y m d = false ->
  from_google_api (JDict (dict_delete "birthdays" person)) = Ok c ->
  google_birthday (JDict person) = Ok None /\
  from_google_api (JDict person) = Ok c /\
  birthday c = None.
Proof.
  intros Hb Hdate Hy Hm Hmr Hd Hdr Hinvalid Hrest.
  assert (Hnone : google_birthday (JDict person) = Ok None)
    by eauto using google_birthday_invalid.
  split; [exact Hnone|].
  rewrite from_google_api_without_birthdays by exact Hnone.
  split; [exact Hrest|].
  apply from_google_api_birthday in Hrest.
  rewrite google_birthday_absent in Hrest by apply dict_lookup_delete_eq.
  congruence.
Qed.

Lemma from_google_api_invalid_birthday_witness :
  exists c, from_google_api (JDict feb30_person) = Ok c /\ birthday c = None
            /\ first_name c = "Cy".
Proof.
  eexists.
  assert (Hr : (INT_MIN <= 2 <= INT_MAX)%Z /\ (INT_MIN <= 30 <= INT_MAX)%Z)
    by (unfold INT_MIN, INT_MAX; lia).
  pose proof (from_google_api_invalid_birthday feb30_person
                (JDict [("date", JDict [("month", JInt 2); ("day", JInt 30)])]) []
                [("month", JInt 2); ("day", JInt 30)] 1900 2 30 _
                eq_refl eq_refl eq_refl eq_refl (proj1 Hr) eq_refl (proj2 Hr) eq_refl eq_refl)
    as (_ & H1 & H2).
  split; [exact H1|]. split; [exact H2 | reflexivity].
Defined.

(** ** JSON equality *)

Lemma json_induction (P : json -> Prop) :
  P JNull -> (forall b, P (JBool b)) -> (forall n, P (JInt n)) -> (forall s, P (JStr s)) ->
  (forall l, Forall P l -> P (JList l)) ->
  (forall d, Forall (fun kv => P (snd kv)) d -> P (JDict d)) ->
  forall v, P v.
Proof.
  intros HN HB HI HS HL HD. fix IH 1.
  intros [|b|n|s|l|d]; [exact HN | apply HB | apply HI | apply HS | |].
  - apply HL. induction l as [|x l IHl]; constructor; [apply IH | exact IHl].
  - apply HD. induction d as [|[k x] d IHd]; constructor; [apply IH | exact IHd].
Qed.

Lemma json_eqb_eq (a b : json) : json_eqb a b = true <-> a = b.
Proof.
  revert b. induction a as [|x|x|x|l IH|d IH] using json_induction;
    intros [|y|y|y|m|e]; cbn; try (split; [discriminate | congruence]);
    try (split; congruence).
  - rewrite Bool.eqb_true_iff. split; congruence.
  - rewrite Z.eqb_eq. split; congruence.
  - rewrite String.eqb_eq. split; congruence.
  - revert m. induction IH as [|x l Hx _ IHl]; intros [|y m];
      try (split; [discriminate | congruence]); [split; reflexivity|].
    rewrite andb_true_iff, Hx, IHl. split; [intros [-> [= ->]]; reflexivity | intros [= -> ->]; auto].
  - revert e. induction IH as [|[k x] d Hx _ IHd]; intros [|[k' y] e];
      try (split; [discriminate | congruence]); [split; reflexivity|].
    cbn in Hx. rewrite !andb_true_iff, String.eqb_eq, Hx, IHd.
    split; [intros [[-> ->] [= ->]]; reflexivity | intros [= -> -> ->]; auto].
Qed.

Lemma json_eqb_refl (a : json) : json_eqb a a = true.
Proof. by apply json_eqb_eq. Qed.

(** ** The orchestrator *)

Section OrchestratorProperties.
Context {W : Type} `{!NotionClient W} `{!GoogleContactsClient W} `{!Clock W}.
Variable fromisoformat : string -> option datetime.

Ltac run := cbn -[json_eqb _merge_contacts to_google_person from_notion_page
                  from_google_api to_notion_properties _find_existing_page].

Lemma sync_to_google_step_outcome (page : json) (stats : SyncStats) (σ : state W) :
  exists stats' σ' l,
    sync_to_google_step fromisoformat page stats σ = (Ok stats', σ')
    /\ calls σ' = calls σ ++ l
    /\ syncer σ' = syncer σ
    /\ to_google_outcome (classify fromisoformat page) stats stats' l.
Proof using Type.
  unfold sync_to_google_step, classify, try_except, lift, mbind, M_bind, mret, M_ret.
  destruct (from_notion_page fromisoformat page) as [nc|e]; run.
  2:{ exists (append_error (page_error e) stats), σ, [].
      rewrite app_nil_r. repeat split. }
  destruct (str_truthy (google_id nc)); run.
  2:{ exists (incr_skipped stats), σ, []. rewrite app_nil_r. repeat split. }
  unfold push_to_google, get_contact, update_contact, client_call, lift, mbind, M_bind,
    mret, M_ret.
  destruct (google_get_contact (google_id nc) (world σ)) as [[gp|e] w]; run.
  2:{ eexists _, _, _. split; [reflexivity|]. cbn. repeat split. left. eauto. }
  destruct (from_google_api gp) as [g|e]; run.
  2:{ eexists _, _, _. split; [reflexivity|]. cbn. repeat split. left. eauto. }
  destruct (json_eqb (JDict (to_google_person g)) _) eqn:Heq; run.
  { apply json_eqb_eq in Heq. injection Heq as Heq.
    eexists _, _, _. split; [reflexivity|]. cbn. repeat split. right. left. eauto. }
  assert (Hne : to_google_person g <> to_google_person (_merge_contacts g nc)).
  { intros Heq'. rewrite Heq', json_eqb_refl in Heq. discriminate. }
  destruct (google_update_contact _ _ w) as [[r|e] w'] eqn:Hup; run;
    eexists _, _, _; (split; [reflexivity|]); cbn; rewrite <- ?app_assoc; run;
    repeat split; right; right; eauto 10.
Qed.

Lemma sync_to_google_loop_run (pages : list json) (stats : SyncStats) (σ : state W) :
  exists stats' σ' l,
    sync_to_google_loop fromisoformat pages stats σ = (Ok stats', σ')
    /\ calls σ' = calls σ ++ l
    /\ syncer σ' = syncer σ
    /\ to_google_run (map (classify fromisoformat) pages) stats stats' l.
Proof using Type.
  revert stats σ. induction pages as [|page pages IH]; intros stats σ.
  - exists stats, σ, []. rewrite app_nil_r. repeat split. constructor.
  - destruct (sync_to_google_step_outcome page stats σ) as (s1 & σ1 & l1 & E1 & C1 & S1 & O1).
    destruct (IH s1 σ1) as (s2 & σ2 & l2 & E2 & C2 & S2 & O2).
    exists s2, σ2, (l1 ++ l2). cbn [sync_to_google_loop map].
    unfold mbind, M_bind. rewrite E1, E2, C2, C1, S2, S1, app_assoc.
    repeat split. econstructor; eassumption.
Qed.

(** When the listing succeeds, [sync_to_google] returns: it makes the
    listing call, then runs the loop over the pages listed. *)
Lemma sync_to_google_run (σ : state W) (pages : list json) (w : W) :
  notion_query_database_all (database_id (syncer σ)) (world σ) = ((pages, None), w) ->
  exists stats σ' l,
    sync_to_google fromisoformat σ = (Ok stats, σ')
    /\ calls σ' = calls σ ++ QueryDatabaseAll (database_id (syncer σ)) :: l
    /\ to_google_run (map (classify fromisoformat) pages) new_stats stats l.
Proof using Type.
  intros Hq. unfold sync_to_google, get_self, query_database_all, client_call,
    mbind, M_bind, mret, M_ret. run. rewrite Hq. run.
  match goal with
  | |- context [sync_to_google_loop _ _ _ ?σ1] =>
      destruct (sync_to_google_loop_run pages new_stats σ1)
        as (s2 & σ2 & l2 & E2 & C2 & _ & O2)
  end.
  exists s2, σ2, l2. rewrite E2, C2. run. rewrite <- app_assoc. repeat split. exact O2.
Qed.

(** A listing that fails makes [sync_to_google] raise: a setup failure
    is not a record's failure. *)
Lemma sync_to_google_listing_fails (σ : state W) (pages : list json) (e : exn) (w : W) :
  notion_query_database_all (database_id (syncer σ)) (world σ) = ((pages, Some e), w) ->
  fst (sync_to_google fromisoformat σ) = Raise e.
Proof using Type.
  intros Hq. unfold sync_to_google, get_self, query_database_all, client_call,
    mbind, M_bind, mret, M_ret, raise. run. rewrite Hq. reflexivity.
Qed.
End OrchestratorProperties.

(** ** What a run of the database-to-remote loop implies *)

Lemma to_google_run_counts ks s s' l :
  to_google_run ks s s' l ->
  skipped s' = (skipped s + length (List.filter is_unkeyed ks))%nat
  /\ created s' = created s
  /\ (updated s' <= updated s + length (List.filter is_google_write l))%nat.
Proof.
  induction 1 as [s|k ks s s1 s2 l1 l2 Hk _ (IH1 & IH2 & IH3)]; [cbn; lia|].
  rewrite List.filter_app, length_app, IH1, IH2.
  destruct k as [e|c|nc]; cbn in Hk |- *.
  - destruct Hk as [-> ->]. cbn in *. lia.
  - destruct Hk as [-> ->]. cbn in *. lia.
  - destruct Hk as [[[e ->] ->]|[(g & _ & -> & ->)|(g & _ & -> & [->|[e ->]])]];
      cbn in *; lia.
Qed.

Lemma to_google_run_fetches ks s s' l :
  to_google_run ks s s' l -> omap fetched_name l = omap keyed_name ks.
Proof.
  induction 1 as [s|k ks s s1 s2 l1 l2 Hk _ IH]; [reflexivity|].
  rewrite omap_app, IH.
  destruct k as [e|c|nc]; cbn in Hk |- *.
  - by destruct Hk as [_ ->].
  - by destruct Hk as [_ ->].
  - by destruct Hk as [[_ ->]|[(g & _ & _ & ->)|(g & _ & -> & _)]].
Qed.

Lemma justified_google_call_cons k ks c :
  justified_google_call ks c -> justified_google_call (k :: ks) c.
Proof. intros (nc & Hin & Hc). exists nc. split; [by right | exact Hc]. Qed.

Lemma to_google_run_calls ks s s' l :
  to_google_run ks s s' l -> Forall (justified_google_call ks) l.
Proof.
  induction 1 as [s|k ks s s1 s2 l1 l2 Hk _ IH]; [constructor|].
  apply Forall_app. split.
  - destruct k as [e|c|nc]; cbn in Hk.
    + destruct Hk as [_ ->]. constructor.
    + destruct Hk as [_ ->]. constructor.
    + assert (Hget : justified_google_call (Keyed nc :: ks) (GetContact (google_id nc))).
      { exists nc. split; [by left | by left]. }
      destruct Hk as [[_ ->]|[(g & _ & _ & ->)|(g & Hne & -> & _)]].
      * apply List.Forall_cons; [exact Hget | constructor].
      * apply List.Forall_cons; [exact Hget | constructor].
      * apply List.Forall_cons; [exact Hget|]. apply List.Forall_cons; [|constructor].
        exists nc. split; [by left|]. right. eauto.
  - eapply Forall_impl; [exact IH|]. intros c. apply justified_google_call_cons.
Qed.

Lemma to_google_error_cons k ks msg :
  to_google_error ks msg -> to_google_error (k :: ks) msg.
Proof.
  unfold to_google_error.
  intros [(nc & e & Hin & ->)|(e & Hin & ->)]; [left | right]; eauto 6 using in_cons.
Qed.

Lemma to_google_run_errors ks s s' l :
  to_google_run ks s s' l ->
  exists errs, errors s' = errors s ++ errs /\ Forall (to_google_error ks) errs.
Proof.
  induction 1 as [s|k ks s s1 s2 l1 l2 Hk _ (errs & IH1 & IH2)].
  - exists []. by rewrite app_nil_r.
  - assert (Hstep : exists e1, errors s1 = errors s ++ e1
                               /\ Forall (to_google_error (k :: ks)) e1).
    { destruct k as [e|c|nc]; cbn in Hk.
      - destruct Hk as [-> _]. eexists [_]. split; [reflexivity|].
        apply List.Forall_cons; [|constructor].
        right. exists e. split; [by left | reflexivity].
      - destruct Hk as [-> _]. exists []. by rewrite app_nil_r.
      - assert (Herr : forall e, to_google_error (Keyed nc :: ks) (push_error nc e)).
        { intros e. left. exists nc, e. split; [by left | reflexivity]. }
        destruct Hk as [[[e ->] _]|[(g & _ & -> & _)|(g & _ & _ & [->|[e ->]])]];
          first [ by exists []; rewrite app_nil_r
                | eexists [_]; split;
                  [reflexivity | apply List.Forall_cons; [apply Herr | constructor]] ]. }
    destruct Hstep as (e1 & H1 & H2).
    exists (e1 ++ errs). rewrite IH1, H1, app_assoc. split; [reflexivity|].
    apply Forall_app. split; [exact H2|].
    eapply Forall_impl; [exact IH2|]. intros m. apply to_google_error_cons.
Qed.

Lemma new_calls_app {W} (σ σ' : state W) l : calls σ' = calls σ ++ l -> new_calls σ σ' = l.
Proof. intros E. unfold new_calls. rewrite E. apply drop_app_length. Qed.

Lemma keyed_names_nonempty ks c :
  justified_google_call ks c ->
  (forall nc, In (Keyed nc) ks -> google_id nc <> "") ->
  to_google_call_ok c.
Proof.
  intros (nc & Hin & [->|(g & -> & _)]) Hks; cbn; auto.
Qed.

Lemma classify_keyed fromisoformat pages nc :
  In (Keyed nc) (map (classify fromisoformat) pages) -> google_id nc <> "".
Proof.
  intros Hin. apply in_map_iff in Hin as (page & Hc & _). unfold classify in Hc.
  destruct (from_notion_page fromisoformat page) as [c|e]; [|discriminate].
  destruct (str_truthy (google_id c)) eqn:Ht; [|discriminate].
  injection Hc as ->. by apply str_truthy_nonempty.
Qed.

Section ToGoogleClaims.
Context {W : Type} `{!NotionClient W} `{!GoogleContactsClient W} `{!Clock W}.
Variable fromisoformat : string -> option datetime.

(** C7: in [sync_to_google], a database record whose parsed form has an
    empty identity key adds one to [skipped] and leaves everything else
    as it was, the call log included; over a whole listing, [skipped]
    counts exactly those records, the fetches made are exactly the
    identity keys of the keyed records, in order, and every address-book
    call carries a non-empty resource name. *)
Theorem sync_to_google_skips_unkeyed (σ : state W) (pages : list json) (w : W) :
  notion_query_database_all (database_id (syncer σ)) (world σ) = ((pages, None), w) ->
  (forall page c stats σ0,
      from_notion_page fromisoformat page = Ok c -> google_id c = "" ->
      sync_to_google_step fromisoformat page stats σ0 = (Ok (incr_skipped stats), σ0))
  /\ exists stats σ',
      sync_to_google fromisoformat σ = (Ok stats, σ')
      /\ skipped stats = length (List.filter is_unkeyed (map (classify fromisoformat) pages))
      /\ omap fetched_name (new_calls σ σ')
         = omap keyed_name (map (classify fromisoformat) pages)
      /\ Forall to_google_call_ok (new_calls σ σ').
Proof using Type.
  intros Hq. split.
  - intros page c stats σ0 Hc Hid.
    unfold sync_to_google_step, try_except, lift, mbind, M_bind, mret, M_ret.
    rewrite Hc. cbn. rewrite Hid. reflexivity.
  - destruct (sync_to_google_run fromisoformat σ pages w Hq) as (stats & σ' & l & E & C & R).
    exists stats, σ'. split; [exact E|].
    rewrite (new_calls_app _ _ _ C).
    destruct (to_google_run_counts _ _ _ _ R) as (Hs & _ & _).
    split; [exact Hs|]. split.
    + cbn. apply (to_google_run_fetches _ _ _ _ R).
    + constructor; [exact I|].
      eapply Forall_impl; [apply (to_google_run_calls _ _ _ _ R)|].
      intros c Hc. eapply keyed_names_nonempty; [exact Hc|].
      intros nc. apply classify_keyed.
Qed.
End ToGoogleClaims.

Lemma sync_to_google_skips_unkeyed_witness :
  exists stats σ',
    sync_to_google toy_fromisoformat (toy_state manual_world) = (Ok stats, σ')
    /\ skipped stats = 1%nat
    /\ omap fetched_name (new_calls (toy_state manual_world) σ') = []
    /\ Forall to_google_call_ok (new_calls (toy_state manual_world) σ').
Proof.
  assert (Hq : notion_query_database_all (database_id (syncer (toy_state manual_world)))
                 (world (toy_state manual_world)) = (([manual_page], None), manual_world))
    by reflexivity.
  destruct (sync_to_google_skips_unkeyed toy_fromisoformat (toy_state manual_world)
              [manual_page] manual_world Hq) as (_ & stats & σ' & H1 & H2 & H3 & H4).
  exists stats, σ'. split; [exact H1|]. split; [exact H2|]. split; [exact H3 | exact H4].
Defined.

(** ** The remote-to-database phase *)

Section FromGoogleProperties.
Context {W : Type} `{!NotionClient W} `{!GoogleContactsClient W} `{!Clock W}.
Variable fromisoformat : string -> option datetime.

Ltac run := cbn -[json_eqb _merge_contacts to_google_person from_notion_page
                  from_google_api to_notion_properties _find_existing_page py_getitem].

(** [sync_contact_to_notion] makes exactly one write: an update that it
    reports as "updated", or a creation that it reports as "created". *)
Lemma sync_contact_to_notion_write (c : Contact) (σ : state W) :
  exists wr,
    calls (snd (sync_contact_to_notion c σ)) = calls σ ++ [wr]
    /\ ((exists page_id props, wr = UpdatePage page_id props
           /\ (fst (sync_contact_to_notion c σ) = Ok (page_id, "updated")
               \/ exists e, fst (sync_contact_to_notion c σ) = Raise e))
        \/ (exists db props, wr = CreatePage db props
              /\ ((exists page_id, fst (sync_contact_to_notion c σ) = Ok (page_id, "created"))
                  \/ exists e, fst (sync_contact_to_notion c σ) = Raise e))).
Proof using Type.
  unfold sync_contact_to_notion, get_today, get_self, update_page, create_page,
    client_call, modify_self, store_email, lift, mbind, M_bind, mret, M_ret. run.
  destruct (truthy (_find_existing_page (syncer σ) c)); run.
  - destruct (notion_update_page _ _ (world σ)) as [[r|e] w]; run.
    + destruct (str_truthy (google_id c)); run;
        eexists; (split; [reflexivity|]); left; eauto 10.
    + eexists; (split; [reflexivity|]); left; eauto 10.
  - destruct (notion_create_page _ _ (world σ)) as [[r|e] w]; run.
    + destruct (py_getitem r "id") as [i|e]; run.
      * destruct (str_truthy (google_id c)), (ostr_truthy (primary_email c)); run;
          eexists; (split; [reflexivity|]); right; eauto 10.
      * eexists; (split; [reflexivity|]); right; eauto 10.
    + eexists; (split; [reflexivity|]); right; eauto 10.
Qed.

#[local] Existing Instances M_ret M_bind.

Lemma run_bind {A B} (m : M W A) (f : A -> M W B) (σ : state W) :
  (m ≫= f) σ = match m σ with
               | (Ok a, σ') => f a σ'
               | (Raise e, σ') => (Raise e, σ')
               end.
Proof using Type. reflexivity. Qed.

(** The action [sync_contact_to_notion] reports, with the write made. *)
Lemma upsert_action_write (c : Contact) (σ : state W) :
  let r := ('(_, action) ← sync_contact_to_notion c; mret action) σ in
  exists wr,
    calls (snd r) = calls σ ++ [wr]
    /\ ((exists page_id props, wr = UpdatePage page_id props
           /\ (fst r = Ok "updated" \/ exists e, fst r = Raise e))
        \/ (exists db props, wr = CreatePage db props
              /\ (fst r = Ok "created" \/ exists e, fst r = Raise e))).
Proof using Type.
  cbv zeta. rewrite run_bind.
  destruct (sync_contact_to_notion_write c σ) as (wr & Hcalls & Hwr).
  exists wr.
  destruct (sync_contact_to_notion c σ) as [[[pid action]|e] σ2]; cbn in Hcalls, Hwr |- *;
    (split; [exact Hcalls|]).
  - destruct Hwr as [(p & props & -> & [[= -> ->]|[e ?]])
                    |(db & props & -> & [[p [= -> ->]]|[e ?]])]; try discriminate;
      [left | right]; eauto 10.
  - destruct Hwr as [(p & props & -> & _)|(db & props & -> & _)]; [left | right]; eauto 10.
Qed.

(** The [try] body of the loop: at most one fetch, then at most one
    write; an action is reported only after its write. *)
Lemma upsert_google_contact_calls (contact : Contact) (σ : state W) :
  let r := upsert_google_contact fromisoformat contact σ in
  exists fetch write,
    calls (snd r) = calls σ ++ fetch ++ write
    /\ (fetch = [] \/ exists page_id, fetch = [GetPage page_id])
    /\ ((exists db props, write = [CreatePage db props]
           /\ (fst r = Ok "created" \/ exists e, fst r = Raise e))
        \/ (exists page_id props, write = [UpdatePage page_id props]
              /\ (fst r = Ok "updated" \/ exists e, fst r = Raise e))
        \/ (write = [] /\ exists e, fst r = Raise e)).
Proof using Type.
  intros r. assert (Hr : r = upsert_google_contact fromisoformat contact σ) by reflexivity.
  clearbody r. unfold upsert_google_contact in Hr.
  rewrite run_bind in Hr. unfold get_self at 1 in Hr. cbn beta iota in Hr.
  rewrite run_bind in Hr.
  assert (Htail : forall c σ1 fetch,
             calls σ1 = calls σ ++ fetch ->
             (fetch = [] \/ exists page_id, fetch = [GetPage page_id]) ->
             r = ('(_, action) ← sync_contact_to_notion c; mret action) σ1 ->
             exists fetch write,
               calls (snd r) = calls σ ++ fetch ++ write
               /\ (fetch = [] \/ exists page_id, fetch = [GetPage page_id])
               /\ ((exists db props, write = [CreatePage db props]
                      /\ (fst r = Ok "created" \/ exists e, fst r = Raise e))
                   \/ (exists page_id props, write = [UpdatePage page_id props]
                         /\ (fst r = Ok "updated" \/ exists e, fst r = Raise e))
                   \/ (write = [] /\ exists e, fst r = Raise e))).
  { intros c σ1 fetch Hc Hf ->.
    destruct (upsert_action_write c σ1) as (wr & Hcalls & Hwr). cbv zeta in Hcalls, Hwr.
    exists fetch, [wr]. rewrite Hcalls, Hc, <- app_assoc.
    split; [reflexivity|]. split; [exact Hf|].
    destruct Hwr as [(p & props & -> & Hres)|(db & props & -> & Hres)];
      [right; left | left]; eauto. }
  destruct (truthy (_find_existing_page (syncer σ) contact)).
  - rewrite run_bind in Hr. unfold get_page at 1, client_call at 1 in Hr.
    destruct (notion_get_page _ (world σ)) as [[page|e] w]; cbn beta iota in Hr.
    + rewrite run_bind in Hr. unfold lift at 1 in Hr.
      destruct (from_notion_page fromisoformat page) as [nc|e]; cbn beta iota in Hr.
      * unfold mret at 1, M_ret at 1 in Hr. cbn beta iota zeta in Hr.
        eapply Htail; [| |exact Hr]; [reflexivity | eauto].
      * subst r. eexists [_], []. cbn. split; [reflexivity|]. split; [eauto|].
        right. right. split; [reflexivity|]. by exists e.
    + subst r. eexists [_], []. cbn. split; [reflexivity|]. split; [eauto|].
      right. right. split; [reflexivity|]. by exists e.
  - unfold mret at 1, M_ret at 1 in Hr. cbn beta iota in Hr.
    eapply Htail; [| |exact Hr]; [by rewrite app_nil_r | by left].
Qed.

Lemma sync_from_google_step_outcome (contact : Contact) (stats : SyncStats) (σ : state W) :
  exists stats' σ' l,
    sync_from_google_step fromisoformat contact stats σ = (Ok stats', σ')
    /\ calls σ' = calls σ ++ l
    /\ from_google_outcome contact stats stats' l.
Proof using Type.
  unfold sync_from_google_step, try_except. rewrite run_bind.
  destruct (upsert_google_contact_calls contact σ) as (fetch & write & Hc & Hf & Hw).
  cbv zeta in Hc, Hw.
  destruct (upsert_google_contact fromisoformat contact σ) as [[action|e] σ1];
    cbn in Hc, Hw |- *; eexists _, σ1, (fetch ++ write);
    (split; [reflexivity|]); (split; [exact Hc|]);
    exists fetch, write; (split; [reflexivity|]); (split; [exact Hf|]).
  - destruct Hw as [(db & props & -> & [[= ->]|[e ?]])
                   |[(p & props & -> & [[= ->]|[e ?]])|(_ & e & ?)]]; try discriminate.
    + left. eauto 10.
    + right. left. eauto 10.
  - destruct Hw as [(db & props & -> & _)|[(p & props & -> & _)|(-> & _)]].
    + left. exists db, props. split; [reflexivity|]. right. by exists e.
    + right. left. exists p, props. split; [reflexivity|]. right. by exists e.
    + right. right. split; [reflexivity|]. by exists e.
Qed.

Lemma sync_from_google_loop_run (contacts : list Contact) (stats : SyncStats) (σ : state W) :
  exists stats' σ' l,
    sync_from_google_loop fromisoformat contacts stats σ = (Ok stats', σ')
    /\ calls σ' = calls σ ++ l
    /\ from_google_run contacts stats stats' l.
Proof using Type.
  revert stats σ. induction contacts as [|c cs IH]; intros stats σ.
  - exists stats, σ, []. rewrite app_nil_r. repeat split. constructor.
  - destruct (sync_from_google_step_outcome c stats σ) as (s1 & σ1 & l1 & E1 & C1 & O1).
    destruct (IH s1 σ1) as (s2 & σ2 & l2 & E2 & C2 & O2).
    exists s2, σ2, (l1 ++ l2). cbn [sync_from_google_loop].
    rewrite run_bind, E1, E2, C2, C1, app_assoc.
    repeat split. econstructor; eassumption.
Qed.

(** When the address book answers, [sync_from_google] returns: it makes
    the listing call, then runs the loop over the contacts listed. *)
Lemma sync_from_google_run (σ : state W) (contacts : list Contact) (w : W) :
  google_get_contacts (world σ) = (Ok contacts, w) ->
  exists stats σ' l,
    sync_from_google fromisoformat σ = (Ok stats, σ')
    /\ calls σ' = calls σ ++ GetContacts :: l
    /\ from_google_run contacts new_stats stats l.
Proof using Type.
  intros Hq. unfold sync_from_google. rewrite run_bind.
  unfold get_contacts, client_call. rewrite Hq.
  match goal with
  | |- context [sync_from_google_loop _ _ _ ?σ1] =>
      destruct (sync_from_google_loop_run contacts new_stats σ1)
        as (s2 & σ2 & l2 & E2 & C2 & O2)
  end.
  exists s2, σ2, l2. rewrite E2, C2. cbn. rewrite <- app_assoc. repeat split. exact O2.
Qed.

(** An address book that fails to list makes [sync_from_google] raise. *)
Lemma sync_from_google_listing_fails (σ : state W) (e : exn) (w : W) :
  google_get_contacts (world σ) = (Raise e, w) ->
  fst (sync_from_google fromisoformat σ) = Raise e.
Proof using Type.
  intros Hq. unfold sync_from_google. rewrite run_bind.
  unfold get_contacts, client_call. by rewrite Hq.
Qed.
End FromGoogleProperties.

(** ** What a run of the remote-to-database loop implies *)

Lemma from_google_run_counts cs s s' l :
  from_google_run cs s s' l ->
  (created s' + updated s' + length (errors s')
   = created s + updated s + length (errors s) + length cs)%nat
  /\ skipped s' = skipped s
  /\ (created s' + updated s'
      <= created s + updated s + length (List.filter is_notion_write l))%nat
  /\ (length (List.filter is_notion_write l) <= length cs)%nat
  /\ List.filter is_google_call l = [].
Proof.
  induction 1 as [s|c cs s s1 s2 l1 l2 Hc _ (IH1 & IH2 & IH3 & IH4 & IH5)];
    [cbn; repeat split; lia|].
  rewrite !List.filter_app, !length_app, IH5, IH2.
  destruct Hc as (fetch & write & -> & Hf & Hw).
  rewrite !List.filter_app, !length_app.
  assert (Hfetch : List.filter is_notion_write fetch = []
                   /\ List.filter is_google_call fetch = []).
  { destruct Hf as [->|[p ->]]; split; reflexivity. }
  destruct Hfetch as [-> ->].
  destruct Hw as [(db & props & -> & [->|[e ->]])
                 |[(p & props & -> & [->|[e ->]])|(-> & e & ->)]];
    cbn in *; rewrite ?length_app in *; cbn in *; repeat split; lia.
Qed.

Lemma from_google_error_cons c cs msg :
  from_google_error cs msg -> from_google_error (c :: cs) msg.
Proof. intros (c' & e & Hin & ->). exists c', e. split; [by right | reflexivity]. Qed.

Lemma from_google_run_errors cs s s' l :
  from_google_run cs s s' l ->
  exists errs, errors s' = errors s ++ errs /\ Forall (from_google_error cs) errs.
Proof.
  induction 1 as [s|c cs s s1 s2 l1 l2 Hc _ (errs & IH1 & IH2)].
  - exists []. by rewrite app_nil_r.
  - assert (Hstep : exists e1, errors s1 = errors s ++ e1
                               /\ Forall (from_google_error (c :: cs)) e1).
    { assert (Herr : forall e, from_google_error (c :: cs) (upsert_error c e)).
      { intros e. exists c, e. split; [by left | reflexivity]. }
      destruct Hc as (fetch & write & _ & _ & Hw).
      destruct Hw as [(db & props & _ & [->|[e ->]])
                     |[(p & props & _ & [->|[e ->]])|(_ & e & ->)]];
        first [ by exists []; rewrite app_nil_r
              | eexists [_]; split;
                [reflexivity | apply List.Forall_cons; [apply Herr | constructor]] ]. }
    destruct Hstep as (e1 & H1 & H2).
    exists (e1 ++ errs). rewrite IH1, H1, app_assoc. split; [reflexivity|].
    apply Forall_app. split; [exact H2|].
    eapply Forall_impl; [exact IH2|]. intros m. apply from_google_error_cons.
Qed.

(** ** The two loops, turn by turn *)

Section TurnsProperties.
Context {W : Type} `{!NotionClient W} `{!GoogleContactsClient W} `{!Clock W}.
Variable fromisoformat : string -> option datetime.
#[local] Existing Instances M_ret M_bind.

Ltac run := cbn -[json_eqb _merge_contacts to_google_person from_notion_page
                  from_google_api to_notion_properties _find_existing_page py_getitem].

(** A turn of the loop of [sync_to_google] returns, and is one of the
    turns [to_google_at] lists. *)
Lemma sync_to_google_step_at (page : json) (stats : SyncStats) (σ : state W) :
  exists stats' σ',
    sync_to_google_step fromisoformat page stats σ = (Ok stats', σ')
    /\ to_google_at fromisoformat page stats σ stats' σ'.
Proof using Type.
  unfold sync_to_google_step, try_except, lift, mbind, M_bind, mret, M_ret.
  destruct (from_notion_page fromisoformat page) as [nc|e] eqn:Hp; run.
  2:{ eexists _, _. split; [reflexivity|]. by apply at_malformed. }
  destruct (str_truthy (google_id nc)) eqn:Hk; run.
  2:{ eexists _, _. split; [reflexivity|].
      apply at_unkeyed with nc; [exact Hp | by apply str_truthy_empty]. }
  apply str_truthy_nonempty in Hk.
  unfold push_to_google, get_contact, update_contact, client_call, lift, mbind, M_bind,
    mret, M_ret.
  destruct (google_get_contact (google_id nc) (world σ)) as [[gp|e] w] eqn:Hg; run.
  2:{ eexists _, _. split; [reflexivity|]. by apply at_fetch_failed. }
  destruct (from_google_api gp) as [g|e] eqn:Hgp; run.
  2:{ eexists _, _. split; [reflexivity|]. by eapply at_answer_malformed. }
  destruct (json_eqb (JDict (to_google_person g)) _) eqn:Heq; run.
  { apply json_eqb_eq in Heq. injection Heq as Heq.
    eexists _, _. split; [reflexivity|]. by eapply at_unchanged. }
  assert (Hne : to_google_person g <> to_google_person (_merge_contacts g nc)).
  { intros Heq'. rewrite Heq', json_eqb_refl in Heq. discriminate. }
  destruct (google_update_contact _ _ w) as [[r|e] w'] eqn:Hup; run;
    rewrite <- app_assoc; run; eexists _, _; (split; [reflexivity|]).
  - by eapply at_pushed.
  - by eapply at_push_failed.
Qed.

Lemma sync_to_google_loop_at (pages : list json) (stats : SyncStats) (σ : state W) :
  exists stats' σ',
    sync_to_google_loop fromisoformat pages stats σ = (Ok stats', σ')
    /\ turns (to_google_at fromisoformat) pages stats σ stats' σ'.
Proof using Type.
  revert stats σ. induction pages as [|page pages IH]; intros stats σ.
  - exists stats, σ. split; [reflexivity | constructor].
  - destruct (sync_to_google_step_at page stats σ) as (s1 & σ1 & E1 & T1).
    destruct (IH s1 σ1) as (s2 & σ2 & E2 & T2).
    exists s2, σ2. cbn [sync_to_google_loop]. rewrite run_bind, E1, E2.
    split; [reflexivity | econstructor; eassumption].
Qed.

(** When the listing succeeds, [sync_to_google] returns what the turns
    over the listed pages leave. *)
Lemma sync_to_google_turns (σ : state W) (pages : list json) (w : W) :
  notion_query_database_all (database_id (syncer σ)) (world σ) = ((pages, None), w) ->
  exists stats σ',
    sync_to_google fromisoformat σ = (Ok stats, σ')
    /\ turns (to_google_at fromisoformat) pages new_stats
         (after_listing σ (QueryDatabaseAll (database_id (syncer σ))) w) stats σ'.
Proof using Type.
  intros Hq. unfold sync_to_google, get_self, query_database_all, client_call,
    mbind, M_bind, mret, M_ret. run. rewrite Hq. run.
  apply sync_to_google_loop_at.
Qed.

(** A turn of the loop of [sync_from_google] returns, and is one of the
    turns [from_google_at] lists. *)
Lemma sync_from_google_step_at (contact : Contact) (stats : SyncStats) (σ : state W) :
  exists stats' σ',
    sync_from_google_step fromisoformat contact stats σ = (Ok stats', σ')
    /\ from_google_at fromisoformat contact stats σ stats' σ'.
Proof using Type.
  unfold sync_from_google_step, try_except. rewrite run_bind.
  destruct (upsert_google_contact_calls fromisoformat contact σ) as (_ & write & _ & _ & Hw).
  cbv zeta in Hw.
  destruct (upsert_google_contact fromisoformat contact σ) as [[action|e] σ1] eqn:Hu;
    cbn in Hw |- *.
  - assert (Ha : action = "created" \/ action = "updated").
    { destruct Hw as [(db & props & _ & [[= ->]|[e ?]])
                     |[(p & props & _ & [[= ->]|[e ?]])|(_ & e & ?)]];
        try discriminate; auto. }
    destruct Ha as [-> | ->]; eexists _, _; (split; [reflexivity|]).
    + by apply at_created.
    + by apply at_updated.
  - eexists _, _. split; [reflexivity|]. by apply at_failed.
Qed.

(** A [try] body that returns an action has made exactly one database
    write, its last call: a creation for "created", an update for
    "updated". *)
Lemma counted_turn_writes (contact : Contact) (σ σ' : state W) (action : string) :
  upsert_google_contact fromisoformat contact σ = (Ok action, σ') ->
  exists fetch wr,
    calls σ' = calls σ ++ fetch ++ [wr]
    /\ (fetch = [] \/ exists page_id, fetch = [GetPage page_id])
    /\ ((action = "created" /\ exists db props, wr = CreatePage db props)
        \/ (action = "updated" /\ exists page_id props, wr = UpdatePage page_id props)).
Proof using Type.
  intros Hu.
  destruct (upsert_google_contact_calls fromisoformat contact σ) as (fetch & write & Hc & Hf & Hw).
  cbv zeta in Hc, Hw. rewrite Hu in Hc, Hw. cbn in Hc, Hw.
  destruct Hw as [(db & props & -> & [[= ->]|[e ?]])
                 |[(p & props & -> & [[= ->]|[e ?]])|(_ & e & ?)]]; try discriminate;
    eexists fetch, _; (split; [exact Hc|]); (split; [exact Hf|]); [left | right]; eauto.
Qed.

Lemma sync_from_google_loop_at (contacts : list Contact) (stats : SyncStats) (σ : state W) :
  exists stats' σ',
    sync_from_google_loop fromisoformat contacts stats σ = (Ok stats', σ')
    /\ turns (from_google_at fromisoformat) contacts stats σ stats' σ'.
Proof using Type.
  revert stats σ. induction contacts as [|c cs IH]; intros stats σ.
  - exists stats, σ. split; [reflexivity | constructor].
  - destruct (sync_from_google_step_at c stats σ) as (s1 & σ1 & E1 & T1).
    destruct (IH s1 σ1) as (s2 & σ2 & E2 & T2).
    exists s2, σ2. cbn [sync_from_google_loop]. rewrite run_bind, E1, E2.
    split; [reflexivity | econstructor; eassumption].
Qed.

(** When the address book answers, [sync_from_google] returns what the
    turns over the contacts listed leave. *)
Lemma sync_from_google_turns (σ : state W) (contacts : list Contact) (w : W) :
  google_get_contacts (world σ) = (Ok contacts, w) ->
  exists stats σ',
    sync_from_google fromisoformat σ = (Ok stats, σ')
    /\ turns (from_google_at fromisoformat) contacts new_stats
         (after_listing σ GetContacts w) stats σ'.
Proof using Type.
  intros Hq. unfold sync_from_google. rewrite run_bind.
  unfold get_contacts, client_call. rewrite Hq.
  apply sync_from_google_loop_at.
Qed.
End TurnsProperties.

(** ** Substrings *)

Lemma prefix_app (s q : string) : String.prefix s (s +:+ q) = true.
Proof.
  induction s as [|a s IH]; [by destruct q|].
  change (String.prefix (String a s) (String a s +:+ q))
    with (if ascii_dec a a then String.prefix s (s +:+ q) else false).
  destruct (ascii_dec a a); [exact IH | contradiction].
Qed.

Lemma contains_substringb (sub s : string) : contains sub s -> substringb sub s = true.
Proof.
  intros (p & q & ->). induction p as [|a p IH]; cbn.
  - change ("" +:+ sub +:+ q) with (sub +:+ q).
    assert (Hp := prefix_app sub q).
    destruct (sub +:+ q) as [|a s];
      [change (String.prefix sub "" || false = true)
      |change (String.prefix sub (String a s) || substringb sub s = true)];
      by rewrite Hp.
  - change (String.prefix sub (String a (p +:+ sub +:+ q))
            || substringb sub (p +:+ sub +:+ q) = true).
    by rewrite IH, orb_true_r.
Qed.

Lemma string_app_assoc (a b c : string) : (a +:+ b) +:+ c = a +:+ b +:+ c.
Proof.
  induction a as [|x a IH]; [reflexivity|].
  change (String x ((a +:+ b) +:+ c) = String x (a +:+ b +:+ c)). by rewrite IH.
Qed.

Lemma contains_app_r (sub p s : string) : contains sub s -> contains sub (p +:+ s).
Proof.
  intros (p' & q & ->). exists (p +:+ p'), q. by rewrite string_app_assoc.
Qed.

Lemma upsert_error_names c e : contains (display_name c) (upsert_error c e).
Proof. apply contains_app_r. by exists "", ("': " +:+ exn_msg e). Qed.

Lemma push_error_names c e : contains (display_name c) (push_error c e).
Proof. apply contains_app_r. by exists "", ("' to Google: " +:+ exn_msg e). Qed.

(** ** Building the index calls no client but the listing *)

Section Quiet.
Context {W : Type} `{!NotionClient W} `{!GoogleContactsClient W} `{!Clock W}.
#[local] Existing Instances M_ret M_bind.

Lemma quiet_ret {A} (a : A) : quiet (mret a : M W A).
Proof using Type. by intros σ. Qed.

Lemma quiet_lift {A} (r : result A) : quiet (lift r : M W A).
Proof using Type. by intros σ. Qed.

Lemma quiet_get_self : quiet (get_self : M W ContactSyncer).
Proof using Type. by intros σ. Qed.

Lemma quiet_modify_self f : quiet (modify_self f : M W unit).
Proof using Type. by intros σ. Qed.

Lemma quiet_bind {A B} (m : M W A) (f : A -> M W B) :
  quiet m -> (forall a, quiet (f a)) -> quiet (m ≫= f).
Proof using Type.
  intros Hm Hf σ. unfold mbind, M_bind.
  destruct (Hm σ) as [Hc Hw]. destruct (m σ) as [[a|e] σ1]; cbn in Hc, Hw |- *.
  - destruct (Hf a σ1) as [Hc' Hw']. split; congruence.
  - by split.
Qed.

Ltac solve_quiet :=
  repeat first
    [ apply quiet_ret | apply quiet_lift | apply quiet_get_self | apply quiet_modify_self
    | apply quiet_bind; [|intros ?]
    | match goal with |- quiet (if ?b then _ else _) => destruct b end ].

Lemma quiet_index_page (page : json) : quiet (index_page page : M W unit).
Proof using Type.
  unfold index_page, store_google_id, store_email, store_phone, store_name. solve_quiet.
Qed.

Lemma quiet_for_each {A} (body : A -> M W unit) (l : list A) :
  (forall x, quiet (body x)) -> quiet (for_each body l).
Proof using Type.
  intros Hb. induction l as [|x l IH]; cbn [for_each]; [apply quiet_ret|].
  apply quiet_bind; [apply Hb | intros _; exact IH].
Qed.

(** [initialize] makes one call, the listing. *)
Lemma initialize_calls (σ : state W) :
  calls (snd (initialize σ)) = calls σ ++ [QueryDatabaseAll (database_id (syncer σ))].
Proof using Type.
  unfold initialize. unfold mbind at 1, M_bind at 1, modify_self at 1. cbn beta iota.
  unfold mbind at 1, M_bind at 1, get_self at 1. cbn beta iota.
  unfold mbind at 1, M_bind at 1, query_database_all, client_call. cbn [syncer world calls].
  destruct (notion_query_database_all _ (world σ)) as [[pages stop] w]. cbn beta iota.
  match goal with
  | |- context [(for_each index_page pages ≫= ?k) ?σ1] =>
      assert (Hq : quiet (for_each index_page pages ≫= k));
      [|exact (proj1 (Hq σ1))]
  end.
  apply quiet_bind; [apply quiet_for_each, quiet_index_page|].
  intros _. destruct stop; [by intros ?|apply quiet_ret].
Qed.
End Quiet.

Section PassClaims.
Context {W : Type} `{!NotionClient W} `{!GoogleContactsClient W} `{!Clock W}.
Variable fromisoformat : string -> option datetime.
#[local] Existing Instances M_ret M_bind.

Lemma sync_from_google_calls (σ σ' : state W) (stats : SyncStats) :
  sync_from_google fromisoformat σ = (Ok stats, σ') ->
  exists cs l, calls σ' = calls σ ++ GetContacts :: l /\ from_google_run cs new_stats stats l.
Proof using Type.
  intros Hrun. destruct (google_get_contacts (world σ)) as [[cs|e] w] eqn:Hq.
  - destruct (sync_from_google_run fromisoformat σ cs w Hq) as (s & σ1 & l & E & C & R).
    rewrite E in Hrun. injection Hrun as <- <-. eauto.
  - apply (sync_from_google_listing_fails fromisoformat) in Hq.
    rewrite Hrun in Hq. discriminate.
Qed.

Lemma sync_to_google_calls (σ σ' : state W) (stats : SyncStats) :
  sync_to_google fromisoformat σ = (Ok stats, σ') ->
  exists pages l,
    calls σ' = calls σ ++ QueryDatabaseAll (database_id (syncer σ)) :: l
    /\ to_google_run (map (classify fromisoformat) pages) new_stats stats l.
Proof using Type.
  intros Hrun.
  destruct (notion_query_database_all (database_id (syncer σ)) (world σ))
    as [[pages [e|]] w] eqn:Hq.
  - apply (sync_to_google_listing_fails fromisoformat) in Hq.
    rewrite Hrun in Hq. discriminate.
  - destruct (sync_to_google_run fromisoformat σ pages w Hq) as (s & σ1 & l & E & C & R).
    rewrite E in Hrun. injection Hrun as <- <-. eauto.
Qed.

Lemma full_sync_phases (σ σ' : state W) (g n : SyncStats) :
  full_sync fromisoformat σ = (Ok (g, n), σ') ->
  exists σa σb,
    initialize σ = (Ok tt, σa)
    /\ sync_from_google fromisoformat σa = (Ok g, σb)
    /\ sync_to_google fromisoformat σb = (Ok n, σ').
Proof using Type.
  unfold full_sync. rewrite run_bind.
  destruct (initialize σ) as [[[]|e] σa]; [|discriminate].
  rewrite run_bind.
  destruct (sync_from_google fromisoformat σa) as [[g'|e] σb] eqn:Ef; [|discriminate].
  rewrite run_bind.
  destruct (sync_to_google fromisoformat σb) as [[n'|e] σc] eqn:Et; [|discriminate].
  intros [= -> -> ->]. exists σa, σb. repeat split; assumption.
Qed.

(** C4, amended: a full pass, a second pass over unchanged data
    included, is not free of writes.  A pass that returns has built the
    index, listed the contacts and taken one turn of [sync_from_google]
    for each, then listed the pages and taken one turn of
    [sync_to_google] for each.  The pass writes to the database at least
    once for every contact it counts as created or updated: the [try]
    body of a counted turn ends with its one database write.  The
    short-circuit exists only in the turns of [sync_to_google]
    ([to_google_at]): for a keyed record whose fetch, in the world of
    that turn, answers a person that parses to [g], no update is sent
    when the serialized forms of [g] and of the merged record are equal,
    and the merged record is sent right after the fetch when they
    differ. *)
Theorem second_pass_writes (σ1 σ2 : state W) (g n : SyncStats) :
  full_sync fromisoformat σ1 = (Ok (g, n), σ2) ->
  (exists σa σb contacts wg pages wn,
      initialize σ1 = (Ok tt, σa)
      /\ google_get_contacts (world σa) = (Ok contacts, wg)
      /\ turns (from_google_at fromisoformat) contacts new_stats
           (after_listing σa GetContacts wg) g σb
      /\ notion_query_database_all (database_id (syncer σb)) (world σb)
         = ((pages, None), wn)
      /\ turns (to_google_at fromisoformat) pages new_stats
           (after_listing σb (QueryDatabaseAll (database_id (syncer σb))) wn) n σ2
      /\ (created g + updated g
          <= length (List.filter is_notion_write (new_calls σ1 σ2)))%nat)
  /\ (forall contact σ action σ',
        upsert_google_contact fromisoformat contact σ = (Ok action, σ') ->
        exists fetch wr,
          calls σ' = calls σ ++ fetch ++ [wr]
          /\ (fetch = [] \/ exists page_id, fetch = [GetPage page_id])
          /\ is_notion_write wr = true).
Proof using Type.
  intros Hpass. split.
  2:{ intros contact σ action σ' Hu.
      destruct (counted_turn_writes fromisoformat _ _ _ _ Hu) as (fetch & wr & Hc & Hf & Hw).
      exists fetch, wr. split; [exact Hc|]. split; [exact Hf|].
      by destruct Hw as [(_ & db & props & ->)|(_ & p & props & ->)]. }
  destruct (full_sync_phases _ _ _ _ Hpass) as (σa & σb & Hi & Hf & Ht).
  destruct (google_get_contacts (world σa)) as [[contacts|e] wg] eqn:Hg.
  2:{ apply (sync_from_google_listing_fails fromisoformat) in Hg.
      rewrite Hf in Hg. discriminate. }
  destruct (notion_query_database_all (database_id (syncer σb)) (world σb))
    as [[pages [e|]] wn] eqn:Hn.
  { apply (sync_to_google_listing_fails fromisoformat) in Hn.
    rewrite Ht in Hn. discriminate. }
  exists σa, σb, contacts, wg, pages, wn.
  split; [exact Hi|]. split; [exact Hg|]. split.
  { destruct (sync_from_google_turns fromisoformat σa contacts wg Hg) as (s & σ' & E & T).
    rewrite Hf in E. by injection E as <- <-. }
  split; [exact Hn|]. split.
  { destruct (sync_to_google_turns fromisoformat σb pages wn Hn) as (s & σ' & E & T).
    rewrite Ht in E. by injection E as <- <-. }
  pose proof (initialize_calls σ1) as Ci. rewrite Hi in Ci. cbn in Ci.
  destruct (sync_from_google_calls _ _ _ Hf) as (cs & lf & Cf & Rf).
  destruct (sync_to_google_calls _ _ _ Ht) as (ps & lt & Ct & Rt).
  rewrite (new_calls_app σ1 σ2
             ([QueryDatabaseAll (database_id (syncer σ1))] ++ (GetContacts :: lf)
              ++ QueryDatabaseAll (database_id (syncer σb)) :: lt)).
  2:{ rewrite Ct, Cf, Ci, <- !app_assoc. reflexivity. }
  destruct (from_google_run_counts _ _ _ _ Rf) as (_ & _ & Hw & _ & _).
  cbn. rewrite List.filter_app, length_app. cbn in Hw. lia.
Qed.

(** C8, amended: neither phase raises for a failing record.  When the
    listing call succeeds the phase returns its statistics, after one
    turn for each record listed, in order ([from_google_at],
    [to_google_at]): a turn whose record fails appends exactly one
    message to the error list, any other turn leaves the list as it
    was, and the next turn starts where that one ended.  Every contact
    of [sync_from_google] is counted as created, updated or failed;
    [sync_to_google] goes on to fetch every keyed record.  The message
    names the person, except that a database page that fails to parse
    is reported as "Failed to process Notion page: ..." without a
    name. *)
Theorem sync_phases_isolate_failures (σ σ2 : state W) (contacts : list Contact) (w : W)
    (pages : list json) (w2 : W) :
  google_get_contacts (world σ) = (Ok contacts, w) ->
  notion_query_database_all (database_id (syncer σ2)) (world σ2) = ((pages, None), w2) ->
  (exists stats σ',
      sync_from_google fromisoformat σ = (Ok stats, σ')
      /\ turns (from_google_at fromisoformat) contacts new_stats
           (after_listing σ GetContacts w) stats σ'
      /\ (created stats + updated stats + length (errors stats) = length contacts)%nat
      /\ Forall (from_google_error contacts) (errors stats))
  /\ (exists stats σ',
        sync_to_google fromisoformat σ2 = (Ok stats, σ')
        /\ turns (to_google_at fromisoformat) pages new_stats
             (after_listing σ2 (QueryDatabaseAll (database_id (syncer σ2))) w2) stats σ'
        /\ omap fetched_name (new_calls σ2 σ')
           = omap keyed_name (map (classify fromisoformat) pages)
        /\ Forall (to_google_error (map (classify fromisoformat) pages)) (errors stats))
  /\ (forall c e, contains (display_name c) (upsert_error c e))
  /\ (forall c e, contains (display_name c) (push_error c e)).
Proof using Type.
  intros Hg Hn. split; [|split; [|split]].
  - destruct (sync_from_google_run fromisoformat σ contacts w Hg) as (s & σ' & l & E & C & R).
    exists s, σ'. split; [exact E|]. split.
    { destruct (sync_from_google_turns fromisoformat σ contacts w Hg) as (s0 & σ0 & E0 & T).
      rewrite E in E0. by injection E0 as <- <-. }
    destruct (from_google_run_counts _ _ _ _ R) as (Hc & _).
    destruct (from_google_run_errors _ _ _ _ R) as (errs & He & Hf).
    cbn in Hc, He. split; [lia|]. by rewrite He.
  - destruct (sync_to_google_run fromisoformat σ2 pages w2 Hn) as (s & σ' & l & E & C & R).
    exists s, σ'. split; [exact E|]. split.
    { destruct (sync_to_google_turns fromisoformat σ2 pages w2 Hn) as (s0 & σ0 & E0 & T).
      rewrite E in E0. by injection E0 as <- <-. }
    rewrite (new_calls_app _ _ _ C).
    destruct (to_google_run_errors _ _ _ _ R) as (errs & He & Hf).
    cbn in He. split; [apply (to_google_run_fetches _ _ _ _ R) | by rewrite He].
  - apply upsert_error_names.
  - apply push_error_names.
Qed.
End PassClaims.

(** ** The claims on passes, at concrete worlds *)

(** C4, as stated, fails: with one contact in the address book and an
    empty database, the first pass creates the page, nothing changes in
    between, the address book is as it was, and the second pass updates
    the page again. *)
Lemma second_pass_counterexample :
  fst first_pass = Ok (mkStats 1 0 0 [], mkStats 0 0 0 [])
  /\ toy_people (world (snd first_pass)) = toy_people ann_world
  /\ fst second_pass = Ok (mkStats 0 1 0 [], mkStats 0 0 0 [])
  /\ length (List.filter is_write (new_calls (snd first_pass) (snd second_pass))) = 1%nat.
Proof. repeat split; vm_compute; reflexivity. Qed.

Lemma second_pass_writes_witness :
  length (List.filter is_google_write
            (new_calls (snd dana_first_pass) (snd dana_second_pass))) = 1%nat
  /\ toy_people (world (snd dana_first_pass)) = toy_people dana_world
  /\ exists σa σb contacts wg pages wn,
      initialize (snd dana_first_pass) = (Ok tt, σa)
      /\ google_get_contacts (world σa) = (Ok contacts, wg)
      /\ turns (from_google_at toy_fromisoformat) contacts new_stats
           (after_listing σa GetContacts wg) (mkStats 0 1 0 []) σb
      /\ notion_query_database_all (database_id (syncer σb)) (world σb)
         = ((pages, None), wn)
      /\ turns (to_google_at toy_fromisoformat) pages new_stats
           (after_listing σb (QueryDatabaseAll (database_id (syncer σb))) wn)
           (mkStats 0 1 0 []) (snd dana_second_pass)
      /\ (0 + 1 <= length (List.filter is_notion_write
                             (new_calls (snd dana_first_pass) (snd dana_second_pass))))%nat.
Proof.
  split; [vm_compute; reflexivity|]. split; [vm_compute; reflexivity|].
  apply (second_pass_writes toy_fromisoformat (snd dana_first_pass) (snd dana_second_pass)
           (mkStats 0 1 0 []) (mkStats 0 1 0 [])).
  change (dana_second_pass = (Ok (mkStats 0 1 0 [], mkStats 0 1 0 []), snd dana_second_pass)).
  rewrite (surjective_pairing dana_second_pass) at 1. f_equal.
Defined.

(** C8, as stated, fails: a page whose ["Company"] property is null is
    indexed by [initialize] and fails to parse in [sync_to_google]; the
    pass goes on and records the failure, but the message does not name
    the person, though the page carries the names. *)
Lemma nameless_error_counterexample :
  (props ← py_get null_company_page "properties" (JDict []); get_title props "First Name")
    = Ok (JStr "Ann")
  /\ fst (full_sync toy_fromisoformat (toy_state null_company_world))
     = Ok (new_stats,
           mkStats 0 0 0
             ["Failed to process Notion page: 'NoneType' object has no attribute 'get'"])
  /\ ~ contains "Ann"
         "Failed to process Notion page: 'NoneType' object has no attribute 'get'".
Proof.
  split; [reflexivity|]. split; [vm_compute; reflexivity|].
  intros H. apply contains_substringb in H. vm_compute in H. discriminate.
Qed.

Lemma sync_phases_isolate_failures_witness :
  (exists stats σ',
      sync_from_google toy_fromisoformat (toy_state ann_world) = (Ok stats, σ')
      /\ turns (from_google_at toy_fromisoformat) (parse_connections [ann_person]) new_stats
           (after_listing (toy_state ann_world) GetContacts ann_world) stats σ'
      /\ (created stats + updated stats + length (errors stats) = 1)%nat)
  /\ (exists stats σ',
        sync_to_google toy_fromisoformat (toy_state null_company_world) = (Ok stats, σ')
        /\ turns (to_google_at toy_fromisoformat) [null_company_page] new_stats
             (after_listing (toy_state null_company_world) (QueryDatabaseAll "db")
                null_company_world) stats σ'
        /\ Forall (to_google_error (map (classify toy_fromisoformat) [null_company_page]))
             (errors stats)).
Proof.
  assert (Hg : google_get_contacts (world (toy_state ann_world))
               = (Ok (parse_connections [ann_person]), ann_world)) by reflexivity.
  assert (Hn : notion_query_database_all
                 (database_id (syncer (toy_state null_company_world)))
                 (world (toy_state null_company_world))
               = (([null_company_page], None), null_company_world))
    by reflexivity.
  destruct (sync_phases_isolate_failures toy_fromisoformat (toy_state ann_world)
              (toy_state null_company_world) _ _ _ _ Hg Hn)
    as ((s1 & σ1 & E1 & T1 & C1 & _) & (s2 & σ2 & E2 & T2 & _ & F2) & _).
  split; [exists s1, σ1 | exists s2, σ2]; repeat split; assumption.
Defined.

(** ** The identity index *)

Section IndexProperties.
Context {W : Type} `{!NotionClient W} `{!GoogleContactsClient W} `{!Clock W}.
#[local] Existing Instances M_ret M_bind.

Lemma keeps_ret {A} (a : A) : keeps_google_index (mret a : M W A).
Proof using Type. by intros σ. Qed.

Lemma keeps_lift {A} (r : result A) : keeps_google_index (lift r : M W A).
Proof using Type. by intros σ. Qed.

Lemma keeps_bind {A B} (m : M W A) (f : A -> M W B) :
  keeps_google_index m -> (forall a, keeps_google_index (f a)) ->
  keeps_google_index (m ≫= f).
Proof using Type.
  intros Hm Hf σ. unfold mbind, M_bind.
  specialize (Hm σ). destruct (m σ) as [[a|e] σ1]; cbn in Hm |- *; [|exact Hm].
  by rewrite Hf.
Qed.

Lemma keeps_store_email k v : keeps_google_index (store_email k v : M W unit).
Proof using Type. by intros σ. Qed.

Lemma keeps_store_phone k v : keeps_google_index (store_phone k v : M W unit).
Proof using Type. by intros σ. Qed.

Lemma keeps_store_name k v : keeps_google_index (store_name k v : M W unit).
Proof using Type. by intros σ. Qed.

Ltac solve_keeps :=
  repeat first
    [ apply keeps_ret | apply keeps_lift | apply keeps_store_email
    | apply keeps_store_phone | apply keeps_store_name
    | apply keeps_bind; [|intros ?]
    | match goal with |- keeps_google_index (if ?b then _ else _) => destruct b end ].

(** A page that [initialize] gets through is registered under its
    identity key, when it has one; the identity index is otherwise
    left as it was. *)
Lemma index_page_google_index (page : json) (σ σ' : state W) :
  index_page page σ = (Ok tt, σ') ->
  _google_id_to_page_id (syncer σ')
  = match page_identity page with
    | Some (k, h) => <[k := h]> (_google_id_to_page_id (syncer σ))
    | None => _google_id_to_page_id (syncer σ)
    end.
Proof using Type.
  unfold index_page, page_identity.
  rewrite run_bind. unfold lift at 1.
  destruct (py_getitem page "id") as [page_id|e]; [|discriminate]. cbn beta iota.
  rewrite run_bind. unfold lift at 1.
  destruct (py_get page "properties" (JDict [])) as [props|e]; [|discriminate].
  cbn beta iota.
  rewrite run_bind. unfold lift at 1.
  destruct (page_google_id props) as [google_id|e]; [|discriminate]. cbn beta iota.
  rewrite run_bind.
  match goal with
  | |- match ?store σ with _ => _ end = _ -> _ =>
      destruct (store σ) as [[[]|e] σ1] eqn:Hstore; [|discriminate]
  end.
  match goal with
  | |- ?rest σ1 = _ -> _ =>
      assert (Hrest : keeps_google_index rest) by solve_keeps
  end.
  intros Hrun. specialize (Hrest σ1). rewrite Hrun in Hrest. cbn in Hrest.
  rewrite Hrest. clear Hrun Hrest.
  destruct google_id as [|b|n|k|l|d]; cbn in Hstore.
  - by injection Hstore as <-.
  - destruct b; cbn in Hstore; by injection Hstore as <-.
  - destruct (n =? 0)%Z; cbn in Hstore; by injection Hstore as <-.
  - unfold str_truthy. destruct (negb (String.eqb k "")); cbn in Hstore;
      by injection Hstore as <-.
  - destruct l; cbn in Hstore; [by injection Hstore as <- | discriminate].
  - destruct d; cbn in Hstore; [by injection Hstore as <- | discriminate].
Qed.

Lemma for_each_app {A} (body : A -> M W unit) (l1 l2 : list A) (σ σ' : state W) :
  for_each body (l1 ++ l2) σ = (Ok tt, σ') ->
  exists σm, for_each body l1 σ = (Ok tt, σm) /\ for_each body l2 σm = (Ok tt, σ').
Proof using Type.
  revert σ. induction l1 as [|x l1 IH]; intros σ; cbn [app for_each].
  - intros H. by exists σ.
  - rewrite !run_bind. destruct (body x σ) as [[[]|e] σ1]; [|discriminate].
    apply IH.
Qed.

Lemma for_each_index_other (k : string) (pages : list json) (σ σ' : state W) :
  for_each index_page pages σ = (Ok tt, σ') ->
  (forall q h, In q pages -> page_identity q <> Some (k, h)) ->
  _google_id_to_page_id (syncer σ') !! k = _google_id_to_page_id (syncer σ) !! k.
Proof using Type.
  revert σ. induction pages as [|q pages IH]; intros σ; cbn [for_each].
  - by intros [= ->].
  - rewrite run_bind. destruct (index_page q σ) as [[[]|e] σ1] eqn:Hq; [|discriminate].
    intros Hrest Hother. rewrite (IH σ1 Hrest) by (intros; apply Hother; by right).
    rewrite (index_page_google_index _ _ _ Hq).
    destruct (page_identity q) as [[k' h]|] eqn:Hid; [|reflexivity].
    apply lookup_insert_ne. intros ->. by apply (Hother q h); [left|].
Qed.

(** C6, amended: after [initialize] over a listing, a contact carrying
    the identity key of a listed record is resolved to that record's
    handle, whatever its other fields, provided no record later in the
    listing carries the same key (a later registration overwrites an
    earlier one). *)
Theorem find_by_identity_key (σ σ' : state W) (before after : list json) (page : json)
    (k : string) (h : json) (w : W) :
  notion_query_database_all (database_id (syncer σ)) (world σ)
    = ((before ++ page :: after, None), w) ->
  initialize σ = (Ok tt, σ') ->
  page_identity page = Some (k, h) ->
  (forall q h', In q after -> page_identity q <> Some (k, h')) ->
  forall contact, google_id contact = k -> _find_existing_page (syncer σ') contact = h.
Proof using Type.
  intros Hq Hinit Hid Hafter contact Hk.
  unfold initialize in Hinit.
  rewrite run_bind in Hinit. unfold modify_self at 1 in Hinit. cbn beta iota in Hinit.
  rewrite run_bind in Hinit. unfold get_self at 1 in Hinit. cbn beta iota in Hinit.
  rewrite run_bind in Hinit. unfold query_database_all, client_call in Hinit.
  cbn [syncer world calls reset_indexes database_id] in Hinit. rewrite Hq in Hinit.
  cbn beta iota in Hinit. rewrite run_bind in Hinit.
  match type of Hinit with
  | match for_each index_page _ ?σ0 with _ => _ end = _ =>
      destruct (for_each index_page (before ++ page :: after) σ0)
        as [[[]|e] σ1] eqn:Hloop; [|discriminate]
  end.
  injection Hinit as <-.
  apply for_each_app in Hloop as (σm & _ & Hloop).
  cbn [for_each] in Hloop. rewrite run_bind in Hloop.
  destruct (index_page page σm) as [[[]|e] σp] eqn:Hpage; [|discriminate].
  assert (Hfound : _google_id_to_page_id (syncer σ1) !! k = Some h).
  { rewrite (for_each_index_other k after σp σ1 Hloop Hafter).
    rewrite (index_page_google_index _ _ _ Hpage), Hid. apply lookup_insert_eq. }
  assert (Hkey : str_truthy k = true).
  { unfold page_identity in Hid.
    destruct (py_getitem page "id"); [|discriminate].
    destruct (py_get page "properties" (JDict [])); [|discriminate].
    destruct (page_google_id _) as [[| | |k'| |]|]; try discriminate.
    destruct (str_truthy k') eqn:Hk'; [|discriminate]. by injection Hid as <- _. }
  unfold _find_existing_page, index_get. rewrite Hk, Hkey, Hfound. reflexivity.
Qed.
End IndexProperties.

(** C6, as stated, fails: of two listed records with the same identity
    key the first is registered and then overwritten; a contact carrying
    the key is resolved to the second record's handle. *)
Lemma find_by_identity_key_counterexample :
  page_identity (keyed_page "page-1" "people/c1") = Some ("people/c1", JStr "page-1")
  /\ fst (initialize (toy_state twin_world)) = Ok tt
  /\ _find_existing_page (syncer (snd (initialize (toy_state twin_world)))) ann_google
     = JStr "page-2"
  /\ _find_existing_page (syncer (snd (initialize (toy_state twin_world)))) ann_google
     <> JStr "page-1".
Proof. repeat split; vm_compute; (reflexivity || discriminate). Qed.

Lemma find_by_identity_key_witness :
  _find_existing_page (syncer (snd (initialize (toy_state twin_world)))) named_notion
  = JNull
  /\ _find_existing_page (syncer (snd (initialize (toy_state twin_world)))) ann_google
     = JStr "page-2".
Proof.
  split; [vm_compute; reflexivity|].
  apply (find_by_identity_key (toy_state twin_world) (snd (initialize (toy_state twin_world)))
           [keyed_page "page-1" "people/c1"] [] (keyed_page "page-2" "people/c1")
           "people/c1" (JStr "page-2") twin_world).
  - reflexivity.
  - change (initialize (toy_state twin_world)
            = (Ok tt, snd (initialize (toy_state twin_world)))).
    rewrite (surjective_pairing (initialize (toy_state twin_world))) at 1. f_equal.
  - reflexivity.
  - intros q h' [].
  - reflexivity.
Defined.

(** * Further properties of the code *)

(** ** The merge policy *)

Lemma fill_gap_twice (a b : option string) : fill_gap (fill_gap a b) b = fill_gap a b.
Proof.
  unfold fill_gap. destruct (ostr_truthy a) eqn:Ha, (ostr_truthy b) eqn:Hb; cbn;
    rewrite ?Ha, ?Hb; reflexivity.
Qed.

(** X1: merging the merged record with the same database record again
    changes nothing. *)
Theorem merge_twice (g n : Contact) :
  _merge_contacts (_merge_contacts g n) n = _merge_contacts g n.
Proof.
  rewrite (merge_eq (_merge_contacts g n) n), (merge_eq g n). cbn.
  rewrite !fill_gap_twice. f_equal.
  destruct (hide_birthday n); [reflexivity|].
  by destruct (birthday g), (birthday n).
Qed.

(** X2: the merge returns the address-book record unchanged when the
    database has nothing to add: every optional field is non-empty on the
    address-book side or empty on the database side, and the flag does
    not remove a birthday. *)
Theorem merge_nothing_to_add (g n : Contact) :
  (forall f, gap_filled f = true -> f <> F_birthday ->
             nonempty (field_get f g) = true \/ nonempty (field_get f n) = false) ->
  (if hide_birthday n then birthday g = None
   else birthday g <> None \/ birthday n = None) ->
  _merge_contacts g n = g.
Proof.
  intros Hf Hb. rewrite merge_eq.
  assert (Hfill : forall f a b,
             gap_filled f = true -> f <> F_birthday ->
             field_get f g = VOptStr a -> field_get f n = VOptStr b -> fill_gap a b = a).
  { intros f a b H1 H2 Ha Hn. specialize (Hf f H1 H2). rewrite Ha, Hn in Hf. cbn in Hf.
    unfold fill_gap. destruct Hf as [Hf|Hf]; rewrite Hf; [reflexivity|].
    by rewrite andb_false_r. }
  rewrite (Hfill F_company _ _ eq_refl ltac:(discriminate) eq_refl eq_refl).
  rewrite (Hfill F_title _ _ eq_refl ltac:(discriminate) eq_refl eq_refl).
  rewrite (Hfill F_department _ _ eq_refl ltac:(discriminate) eq_refl eq_refl).
  rewrite (Hfill F_primary_email _ _ eq_refl ltac:(discriminate) eq_refl eq_refl).
  rewrite (Hfill F_secondary_email _ _ eq_refl ltac:(discriminate) eq_refl eq_refl).
  rewrite (Hfill F_primary_phone _ _ eq_refl ltac:(discriminate) eq_refl eq_refl).
  rewrite (Hfill F_secondary_phone _ _ eq_refl ltac:(discriminate) eq_refl eq_refl).
  rewrite (Hfill F_address _ _ eq_refl ltac:(discriminate) eq_refl eq_refl).
  rewrite (Hfill F_website _ _ eq_refl ltac:(discriminate) eq_refl eq_refl).
  destruct g as [g1 g2 g3 g4 g5 g6 g7 g8 g9 g10 g11 g12 g13 g14 g15 g16 g17 g18].
  cbn in Hb |- *. f_equal.
  destruct (hide_birthday n); [by rewrite Hb|].
  destruct g11; [reflexivity|]. destruct Hb as [Hb | ->]; [contradiction | reflexivity].
Qed.

Lemma merge_nothing_to_add_witness : _merge_contacts ann_google blank_notion = ann_google.
Proof.
  apply merge_nothing_to_add.
  - intros f Hg Hb. destruct f; try discriminate; try contradiction; cbn; auto.
  - cbn. left. discriminate.
Defined.

(** ** The update request *)

Lemma dict_lookup_app k d e :
  dict_lookup k (d ++ e) = match dict_lookup k d with
                           | Some v => Some v
                           | None => dict_lookup k e
                           end.
Proof.
  induction d as [|[k' v'] d IH]; cbn; [reflexivity|].
  by destruct (String.eqb k k').
Qed.

Lemma dict_lookup_entry k cond k' v :
  dict_lookup k (entry cond k' v) = if cond && String.eqb k k' then Some v else None.
Proof. destruct cond; cbn; [by destruct (String.eqb k k') | reflexivity]. Qed.

Lemma dict_lookup_birthdays k c :
  dict_lookup k (person_birthdays c)
  = match birthday c with
    | Some b =>
        if negb (hide_birthday c) && String.eqb k "birthdays"
        then Some (JList [JDict [("date", JDict [("year", JInt (year b));
                                                 ("month", JInt (month b));
                                                 ("day", JInt (day b))])]])
        else None
    | None => None
    end.
Proof.
  unfold person_birthdays. destruct (birthday c); [apply dict_lookup_entry | reflexivity].
Qed.

(** The value under each key of the serialized person. *)
Lemma person_entries_lookup k c :
  dict_lookup k (person_entries c)
  = if String.eqb k "names" then
      if str_truthy (first_name c) || str_truthy (last_name c)
      then Some (JList [JDict [("givenName", JStr (first_name c));
                               ("familyName", JStr (last_name c))]])
      else None
    else if String.eqb k "emailAddresses" then
      if truthy (JList (person_emails c)) then Some (JList (person_emails c)) else None
    else if String.eqb k "phoneNumbers" then
      if truthy (JList (person_phones c)) then Some (JList (person_phones c)) else None
    else if String.eqb k "birthdays" then dict_lookup "birthdays" (person_birthdays c)
    else if String.eqb k "organizations" then
      if ostr_truthy (company c) || ostr_truthy (title c) || ostr_truthy (department c)
      then Some (JList [JDict [("name", JStr (or_empty (company c)));
                               ("title", JStr (or_empty (title c)));
                               ("department", JStr (or_empty (department c)))]])
      else None
    else if String.eqb k "addresses" then
      if ostr_truthy (address c)
      then Some (JList [JDict [("formattedValue", ostr_json (address c))]])
      else None
    else if String.eqb k "urls" then
      if ostr_truthy (website c)
      then Some (JList [JDict [("value", ostr_json (website c)); ("type", JStr "homepage")]])
      else None
    else None.
Proof.
  unfold person_entries. rewrite !dict_lookup_app, !dict_lookup_entry, !dict_lookup_birthdays.
  destruct (String.eqb_spec k "names") as [->|_];
    [|destruct (String.eqb_spec k "emailAddresses") as [->|_];
      [|destruct (String.eqb_spec k "phoneNumbers") as [->|_];
        [|destruct (String.eqb_spec k "birthdays") as [->|_];
          [|destruct (String.eqb_spec k "organizations") as [->|_];
            [|destruct (String.eqb_spec k "addresses") as [->|_];
              [|destruct (String.eqb_spec k "urls") as [->|_]]]]]]];
    cbn [String.eqb Ascii.eqb Bool.eqb]; rewrite ?andb_true_r, ?andb_false_r;
    destruct (birthday c);
    repeat match goal with
           | |- context [if ?b then _ else _] => destruct b
           end; reflexivity.
Qed.

Lemma update_fields_entries c : update_fields (person_entries c) = dict_keys (person_entries c).
Proof.
  unfold update_fields, dict_has. rewrite !person_entries_lookup. cbn [String.eqb Ascii.eqb Bool.eqb].
  rewrite dict_lookup_birthdays.
  unfold person_entries, dict_keys, person_birthdays, entry.
  rewrite !map_app.
  destruct (str_truthy (first_name c) || str_truthy (last_name c));
    destruct (truthy (JList (person_emails c)));
    destruct (truthy (JList (person_phones c)));
    destruct (birthday c), (hide_birthday c);
    destruct (ostr_truthy (company c) || ostr_truthy (title c) || ostr_truthy (department c));
    destruct (ostr_truthy (address c)), (ostr_truthy (website c)); reflexivity.
Qed.

Lemma dict_key_lookup k d : In k (dict_keys d) -> exists v, dict_lookup k d = Some v.
Proof.
  induction d as [|[k' v] d IH]; cbn; [tauto|].
  destruct (String.eqb_spec k k') as [->|Hne]; [eauto|].
  intros [->|Hin]; [contradiction | auto].
Qed.

(** X3: the update mask [update_contact] sends names exactly the fields
    present in the body it sends, in the body's order. *)
Theorem update_mask_matches_body (resource_name : string) (contact : Contact) :
  req_params (update_contact_request resource_name contact)
  = [("updatePersonFields", join_commas (dict_keys (req_json (update_contact_request resource_name contact))))]
  /\ req_json (update_contact_request resource_name contact) = to_google_person contact
  /\ (forall k, In k (update_fields (to_google_person contact))
                <-> dict_has k (to_google_person contact) = true).
Proof.
  unfold update_contact_request. cbn.
  rewrite to_google_person_entries, update_fields_entries. split; [reflexivity|].
  split; [reflexivity|]. intros k. unfold dict_has. split.
  - intros Hin. apply dict_key_lookup in Hin as [v ->]. reflexivity.
  - destruct (dict_lookup k (person_entries contact)) eqn:E; [|discriminate].
    intros _. by apply dict_lookup_key in E.
Qed.


(** X4: a birthday hidden in the database is not removed by the update:
    when the address book has a birthday and the database record hides
    it, the merged record serializes differently, so the update is sent,
    but its body has no birthdays entry and its mask does not name
    birthdays. *)
Theorem hidden_birthday_update (resource_name : string) (g n : Contact) (b : date) :
  birthday g = Some b -> hide_birthday g = false -> hide_birthday n = true ->
  to_google_person g <> to_google_person (_merge_contacts g n)
  /\ dict_has "birthdays" (req_json (update_contact_request resource_name (_merge_contacts g n)))
     = false
  /\ ~ In "birthdays" (update_fields (to_google_person (_merge_contacts g n))).
Proof.
  intros Hb Hg Hn.
  assert (Hm : dict_lookup "birthdays" (to_google_person (_merge_contacts g n)) = None).
  { rewrite to_google_person_entries, person_entries_lookup. cbn [String.eqb Ascii.eqb Bool.eqb].
    rewrite dict_lookup_birthdays, merge_eq. cbn. by rewrite Hn. }
  split; [|split].
  - intros Heq. rewrite <- Heq in Hm.
    rewrite to_google_person_entries, person_entries_lookup in Hm.
    cbn [String.eqb Ascii.eqb Bool.eqb] in Hm.
    rewrite dict_lookup_birthdays, Hb, Hg in Hm. discriminate.
  - unfold update_contact_request, dict_has. cbn. by rewrite Hm.
  - rewrite to_google_person_entries, update_fields_entries.
    intros Hin. rewrite <- to_google_person_entries in Hin.
    apply dict_key_lookup in Hin as [v Hv]. congruence.
Qed.

Lemma hidden_birthday_update_witness :
  to_google_person ann_google <> to_google_person (_merge_contacts ann_google ann_notion)
  /\ ~ In "birthdays" (update_fields (to_google_person (_merge_contacts ann_google ann_notion))).
Proof.
  destruct (hidden_birthday_update "people/c1" ann_google ann_notion (mkDate 1990 1 15)
              eq_refl eq_refl eq_refl) as (H1 & _ & H2).
  split; assumption.
Defined.

(** ** The address-book form, parsed back *)

Lemma validate_opt_str_json field (o : option string) :
  validate_opt_str field (ostr_json o) = Ok o.
Proof. by destruct o. Qed.

Lemma str_falsy_empty a b : str_truthy a || str_truthy b = false -> a = "" /\ b = "".
Proof.
  intros H. apply orb_false_elim in H as [Ha Hb].
  by rewrite str_truthy_empty in Ha, Hb.
Qed.

Lemma parse_names c :
  let names := default (JList []) (dict_lookup "names" (person_entries c)) in
  first_get names "givenName" (JStr "") = Ok (JStr (first_name c))
  /\ first_get names "familyName" (JStr "") = Ok (JStr (last_name c)).
Proof.
  cbv zeta. rewrite person_entries_lookup. cbn [String.eqb Ascii.eqb Bool.eqb].
  destruct (_ || _) eqn:E; cbn; [by split|].
  apply str_falsy_empty in E as [-> ->]. by split.
Qed.

Lemma parse_typed_values (a b : option string) (ta tb : string) :
  let l := typed_value a ta ++ typed_value b tb in
  let values := default (JList []) (if truthy (JList l) then Some (JList l) else None) in
  nth_value values 0 = Ok (ostr_json (first_truthy a b))
  /\ nth_value values 1 = Ok (ostr_json (second_truthy a b)).
Proof.
  cbv zeta. unfold typed_value, first_truthy, second_truthy.
  destruct (ostr_truthy a), (ostr_truthy b); cbn; by split.
Qed.

Lemma parse_organizations c :
  let org := ostr_truthy (company c) || ostr_truthy (title c) || ostr_truthy (department c) in
  let orgs := default (JList []) (dict_lookup "organizations" (person_entries c)) in
  first_get orgs "name" JNull
    = Ok (ostr_json (if org then Some (or_empty (company c)) else None))
  /\ first_get orgs "title" JNull
    = Ok (ostr_json (if org then Some (or_empty (title c)) else None))
  /\ first_get orgs "department" JNull
    = Ok (ostr_json (if org then Some (or_empty (department c)) else None)).
Proof.
  cbv zeta. rewrite person_entries_lookup. cbn [String.eqb Ascii.eqb Bool.eqb].
  destruct (_ || _ || _); cbn; by repeat split.
Qed.

Lemma parse_address c :
  first_get (default (JList []) (dict_lookup "addresses" (person_entries c)))
    "formattedValue" JNull
  = Ok (ostr_json (if ostr_truthy (address c) then address c else None)).
Proof.
  rewrite person_entries_lookup. cbn [String.eqb Ascii.eqb Bool.eqb].
  by destruct (ostr_truthy (address c)).
Qed.

Lemma parse_website c :
  first_get (default (JList []) (dict_lookup "urls" (person_entries c))) "value" JNull
  = Ok (ostr_json (if ostr_truthy (website c) then website c else None)).
Proof.
  rewrite person_entries_lookup. cbn [String.eqb Ascii.eqb Bool.eqb].
  by destruct (ostr_truthy (website c)).
Qed.

Lemma valid_date_truthy y m d :
  valid_date y m d = true -> negb (m =? 0)%Z && negb (d =? 0)%Z = true.
Proof.
  unfold valid_date. rewrite !andb_true_iff, !Z.leb_le.
  intros (((((_ & _) & Hm) & _) & Hd) & _).
  destruct (Z.eqb_spec m 0), (Z.eqb_spec d 0); cbn; try reflexivity; lia.
Qed.

Lemma days_in_month_le y m : (days_in_month y m <= 31)%Z.
Proof.
  unfold days_in_month.
  destruct (m =? 2)%Z; [destruct (is_leap y); lia|].
  destruct (_ || _); lia.
Qed.

Lemma valid_date_c_int y m d :
  valid_date y m d = true ->
  c_int (JInt y) = Ok y /\ c_int (JInt m) = Ok m /\ c_int (JInt d) = Ok d.
Proof.
  unfold valid_date. rewrite !andb_true_iff, !Z.leb_le.
  intros (((((Hy1 & Hy2) & Hm1) & Hm2) & Hd1) & Hd2).
  pose proof (days_in_month_le y m).
  repeat split; apply c_int_in_range; unfold INT_MIN, INT_MAX; lia.
Qed.

Lemma parse_birthday c :
  birthday_valid c = true ->
  google_birthday (JDict (person_entries c)) = Ok (birthday (reparsed c)).
Proof.
  unfold birthday_valid, google_birthday. cbn [py_get mbind result_bind].
  rewrite person_entries_lookup. cbn [String.eqb Ascii.eqb Bool.eqb].
  rewrite dict_lookup_birthdays. cbn [reparsed birthday].
  destruct (birthday c) as [[y m d]|]; [|by destruct (hide_birthday c)].
  destruct (hide_birthday c); [reflexivity|]. cbn -[py_date valid_date]. intros Hv.
  rewrite (valid_date_truthy _ _ _ Hv). unfold py_date.
  destruct (valid_date_c_int _ _ _ Hv) as (-> & -> & ->). cbn [mbind result_bind].
  by rewrite (date_new_valid _ _ _ Hv).
Qed.

(** Parsing the serialized form of a contact, entry by entry. *)
Lemma person_entries_parse (c : Contact) :
  birthday_valid c = true ->
  from_google_api (JDict (person_entries c)) = Ok (reparsed c).
Proof.
  intros Hv. unfold from_google_api.
  rewrite (parse_birthday c Hv).
  cbn [py_get mbind result_bind].
  destruct (parse_names c) as [-> ->].
  rewrite !person_entries_lookup. cbn [String.eqb Ascii.eqb Bool.eqb].
  destruct (parse_typed_values (primary_email c) (secondary_email c) "work" "home")
    as [He1 He2].
  destruct (parse_typed_values (primary_phone c) (secondary_phone c) "mobile" "home")
    as [Hp1 Hp2].
  cbv zeta in He1, He2, Hp1, Hp2. unfold person_emails, person_phones.
  rewrite He1, He2, Hp1, Hp2.
  pose proof (parse_organizations c) as (Ho1 & Ho2 & Ho3). cbv zeta in Ho1, Ho2, Ho3.
  rewrite person_entries_lookup in Ho1, Ho2, Ho3.
  cbn [String.eqb Ascii.eqb Bool.eqb] in Ho1, Ho2, Ho3.
  rewrite Ho1, Ho2, Ho3.
  pose proof (parse_address c) as Ha. pose proof (parse_website c) as Hw.
  rewrite person_entries_lookup in Ha, Hw. cbn [String.eqb Ascii.eqb Bool.eqb] in Ha, Hw.
  rewrite Ha, Hw.
  cbn [mbind result_bind default validate_str]. rewrite !validate_opt_str_json.
  reflexivity.
Qed.

(** X5: parsing the serialized form of a contact never raises, and
    yields [reparsed c]: no identity key, the same names, the first
    non-empty e-mail address and phone number as primary, the
    organization fields as strings when one of them is set, the birthday
    when it is shown, and no database-only attribute. *)
Theorem serialized_person_parses (c : Contact) :
  birthday_valid c = true ->
  from_google_api (JDict (to_google_person c)) = Ok (reparsed c).
Proof. intros Hv. rewrite to_google_person_entries. by apply person_entries_parse. Qed.

Lemma serialized_person_parses_witness :
  birthday_valid ann_google = true
  /\ from_google_api (JDict (to_google_person ann_google)) = Ok (reparsed ann_google)
  /\ birthday (reparsed ann_google) = Some (mkDate 1990 1 15)
  /\ google_id (reparsed ann_google) = "".
Proof.
  split; [reflexivity|].
  split; [apply (serialized_person_parses ann_google); reflexivity|].
  split; reflexivity.
Defined.


Lemma ostr_truthy_or_empty (o : option string) :
  ostr_truthy (Some (or_empty o)) = ostr_truthy o.
Proof. destruct o; [reflexivity|]. reflexivity. Qed.

Lemma typed_values_reparsed (a b : option string) (ta tb : string) :
  (ostr_truthy a = false -> ostr_truthy b = false) ->
  typed_value (first_truthy a b) ta ++ typed_value (second_truthy a b) tb
  = typed_value a ta ++ typed_value b tb.
Proof.
  unfold typed_value, first_truthy, second_truthy. intros Hgap.
  destruct (ostr_truthy a) eqn:Ha.
  - destruct (ostr_truthy b) eqn:Hb; cbn; rewrite ?Ha, ?Hb; reflexivity.
  - rewrite (Hgap eq_refl). cbn. reflexivity.
Qed.

(** X6: serializing, parsing and serializing again gives the first
    serialized form, for a contact whose secondary e-mail address and
    phone number are set only when the primary ones are, and whose
    birthday is a valid date. *)
Theorem serialized_form_round_trip (c : Contact) :
  (ostr_truthy (primary_email c) = false -> ostr_truthy (secondary_email c) = false) ->
  (ostr_truthy (primary_phone c) = false -> ostr_truthy (secondary_phone c) = false) ->
  birthday_valid c = true ->
  exists c', from_google_api (JDict (to_google_person c)) = Ok c'
             /\ to_google_person c' = to_google_person c.
Proof.
  intros He Hp Hb. exists (reparsed c).
  split; [rewrite to_google_person_entries; by apply person_entries_parse|].
  rewrite !to_google_person_entries. unfold person_entries, person_emails, person_phones.
  cbn [reparsed first_name last_name company title department primary_email
         secondary_email primary_phone secondary_phone address website].
  rewrite (typed_values_reparsed _ _ "work" "home" He).
  rewrite (typed_values_reparsed _ _ "mobile" "home" Hp).
  assert (Hbirth : person_birthdays (reparsed c) = person_birthdays c).
  { unfold person_birthdays. cbn [reparsed birthday hide_birthday].
    destruct (birthday c) as [b|] eqn:Eb; [|by destruct (hide_birthday c)].
    by destruct (hide_birthday c) eqn:Eh. }
  rewrite Hbirth.
  assert (Horg : forall k : bool,
             entry
               (ostr_truthy (if k then Some (or_empty (company c)) else None)
                || ostr_truthy (if k then Some (or_empty (title c)) else None)
                || ostr_truthy (if k then Some (or_empty (department c)) else None))
               "organizations"
               (JList [JDict [("name", JStr (or_empty (if k then Some (or_empty (company c)) else None)));
                              ("title", JStr (or_empty (if k then Some (or_empty (title c)) else None)));
                              ("department", JStr (or_empty (if k then Some (or_empty (department c)) else None)))]])
             = entry (k && (ostr_truthy (company c) || ostr_truthy (title c)
                            || ostr_truthy (department c)))
                 "organizations"
                 (JList [JDict [("name", JStr (or_empty (company c)));
                                ("title", JStr (or_empty (title c)));
                                ("department", JStr (or_empty (department c)))]])).
  { intros [|]; [|reflexivity]. rewrite !ostr_truthy_or_empty. reflexivity. }
  rewrite Horg, andb_diag.
  assert (Hval : forall (o : option string) (k : string) (mk : option string -> json),
             entry (ostr_truthy (if ostr_truthy o then o else None)) k
               (mk (if ostr_truthy o then o else None))
             = entry (ostr_truthy o) k (mk o)).
  { intros o k mk. by destruct (ostr_truthy o) eqn:E; [rewrite E|]. }
  rewrite (Hval (address c) "addresses"
             (fun o => JList [JDict [("formattedValue", ostr_json o)]])).
  rewrite (Hval (website c) "urls"
             (fun o => JList [JDict [("value", ostr_json o); ("type", JStr "homepage")]])).
  reflexivity.
Qed.

Lemma serialized_form_round_trip_witness :
  exists c', from_google_api (JDict (to_google_person ann_notion)) = Ok c'
             /\ to_google_person c' = to_google_person ann_notion.
Proof.
  apply serialized_form_round_trip.
  - cbn. discriminate.
  - cbn. discriminate.
  - reflexivity.
Defined.

(** X7: a secondary e-mail address or phone number without a primary one
    does not survive the round trip as secondary: it comes back as the
    primary one. *)
Theorem secondary_becomes_primary (c c' : Contact) :
  birthday_valid c = true ->
  from_google_api (JDict (to_google_person c)) = Ok c' ->
  (ostr_truthy (primary_email c) = false -> ostr_truthy (secondary_email c) = true ->
   primary_email c' = secondary_email c /\ secondary_email c' = None)
  /\ (ostr_truthy (primary_phone c) = false -> ostr_truthy (secondary_phone c) = true ->
      primary_phone c' = secondary_phone c /\ secondary_phone c' = None).
Proof.
  intros Hv. rewrite to_google_person_entries, person_entries_parse by exact Hv.
  intros [= <-].
  split; intros Ha Hb; cbn; unfold first_truthy, second_truthy; by rewrite Ha, Hb.
Qed.

Lemma secondary_becomes_primary_witness :
  exists c', from_google_api (JDict (to_google_person home_only)) = Ok c'
             /\ primary_email c' = Some "eve@home.example" /\ secondary_email c' = None.
Proof.
  exists (reparsed home_only).
  assert (Hp : from_google_api (JDict (to_google_person home_only))
               = Ok (reparsed home_only)) by reflexivity.
  destruct (secondary_becomes_primary home_only (reparsed home_only) eq_refl Hp) as [H _].
  split; [exact Hp|]. apply H; reflexivity.
Defined.

(** ** Parsing address-book persons *)

(** X8: a first birthday entry with integer month and day that form a
    date is parsed to that date; an entry without a year gets the year
    1900. *)
Theorem from_google_api_valid_birthday person b rest bd y m d c :
  dict_lookup "birthdays" person = Some (JList (b :: rest)) ->
  py_get b "date" (JDict []) = Ok (JDict bd) ->
  c_int (default (JInt 1900) (dict_lookup "year" bd)) = Ok y ->
  dict_lookup "month" bd = Some (JInt m) ->
  dict_lookup "day" bd = Some (JInt d) ->
  valid_date y m d = true ->
  from_google_api (JDict person) = Ok c ->
  birthday c = Some (mkDate y m d)
  /\ (dict_lookup "year" bd = None -> y = 1900).
Proof.
  intros Hb Hdate Hy Hm Hd Hvalid Hparse. split.
  - apply from_google_api_birthday in Hparse. unfold google_birthday in Hparse.
    cbn in Hparse. rewrite Hb in Hparse. cbn in Hparse. rewrite Hdate in Hparse.
    cbn in Hparse. rewrite Hm, Hd in Hparse. cbn -[py_date] in Hparse.
    rewrite (valid_date_truthy _ _ _ Hvalid) in Hparse.
    unfold py_date in Hparse. rewrite Hy in Hparse.
    destruct (valid_date_c_int _ _ _ Hvalid) as (_ & Hcm & Hcd).
    rewrite Hcm, Hcd in Hparse. cbn in Hparse.
    rewrite (date_new_valid _ _ _ Hvalid) in Hparse. congruence.
  - intros Hnone. rewrite Hnone in Hy. cbn in Hy. congruence.
Qed.

Lemma from_google_api_valid_birthday_witness :
  exists c,
    from_google_api
      (JDict [("names", JList [JDict [("givenName", JStr "Cy")]]);
              ("birthdays", JList [JDict [("date", JDict [("month", JInt 2); ("day", JInt 28)])]])])
    = Ok c
    /\ birthday c = Some (mkDate 1900 2 28).
Proof.
  eexists. split; [reflexivity|].
  eapply (from_google_api_valid_birthday
            [("names", JList [JDict [("givenName", JStr "Cy")]]);
             ("birthdays", JList [JDict [("date", JDict [("month", JInt 2); ("day", JInt 28)])]])]
            (JDict [("date", JDict [("month", JInt 2); ("day", JInt 28)])]) []
            [("month", JInt 2); ("day", JInt 28)] 1900 2 28);
    reflexivity.
Defined.

(** X9: a person that fails to parse is skipped by [get_contacts]; the
    others are kept, in order. *)
Theorem parse_connections_skips (before after : list json) (person : json) (e : exn) :
  from_google_api person = Raise e ->
  parse_connections (before ++ person :: after)
  = parse_connections before ++ parse_connections after.
Proof.
  intros Hbad. induction before as [|p before IH]; cbn.
  - by rewrite Hbad.
  - rewrite IH. by destruct (from_google_api p).
Qed.

Lemma parse_connections_skips_witness :
  parse_connections ([ann_person] ++ JNull :: [JDict feb30_person])
  = parse_connections [ann_person] ++ parse_connections [JDict feb30_person].
Proof.
  apply (parse_connections_skips [ann_person] [JDict feb30_person] JNull
           (no_attribute JNull "get")).
  reflexivity.
Defined.

(** ** Looking up a contact *)

(** X10: matching by e-mail address ignores case, and matching by phone
    number ignores everything but the digits. *)
Theorem find_existing_page_normalizes (self : ContactSyncer) (c : Contact)
    (e1 e2 p1 p2 : string) :
  str_truthy e1 = true -> str_truthy e2 = true -> lower e1 = lower e2 ->
  str_truthy p1 = true -> str_truthy p2 = true -> digits_of p1 = digits_of p2 ->
  _find_existing_page self (set_primary_phone (Some p1) (set_primary_email (Some e1) c))
  = _find_existing_page self (set_primary_phone (Some p2) (set_primary_email (Some e2) c)).
Proof.
  intros He1 He2 He Hp1 Hp2 Hp. unfold _find_existing_page. cbn.
  by rewrite He1, He2, He, Hp1, Hp2, Hp.
Qed.

Lemma find_existing_page_normalizes_witness :
  _find_existing_page (mkSyncer "db" ∅ {["jane@x.com" := JStr "page-1"]} ∅ ∅)
    (set_primary_phone (Some "555-0100") (set_primary_email (Some "Jane@X.com") named_notion))
  = _find_existing_page (mkSyncer "db" ∅ {["jane@x.com" := JStr "page-1"]} ∅ ∅)
      (set_primary_phone (Some "(555) 0100") (set_primary_email (Some "jane@x.COM") named_notion)).
Proof.
  apply find_existing_page_normalizes; reflexivity.
Defined.

(** X15: of the repeatable fields only the first two e-mail addresses and
    phone numbers and the first name, organization, address and url are
    read: what follows them changes nothing. *)
Theorem from_google_api_ignores_rest (person : list (string * json))
    (n e1 e2 p1 p2 o a u : json) (ns es ps os as_ us : list json) :
  from_google_api
    (JDict (("names", JList (n :: ns)) :: ("emailAddresses", JList (e1 :: e2 :: es))
            :: ("phoneNumbers", JList (p1 :: p2 :: ps)) :: ("organizations", JList (o :: os))
            :: ("addresses", JList (a :: as_)) :: ("urls", JList (u :: us)) :: person))
  = from_google_api
      (JDict (("names", JList [n]) :: ("emailAddresses", JList [e1; e2])
              :: ("phoneNumbers", JList [p1; p2]) :: ("organizations", JList [o])
              :: ("addresses", JList [a]) :: ("urls", JList [u]) :: person)).
Proof. reflexivity. Qed.

(** ** The schema *)

Lemma property_type_rich_text v : property_type (rich_text_prop v) = Some "rich_text".
Proof. unfold rich_text_prop. by destruct (ostr_truthy v). Qed.

Lemma property_type_email v : property_type (email_prop v) = Some "email".
Proof. unfold email_prop. by destruct (ostr_truthy v). Qed.

Lemma property_type_phone v : property_type (phone_prop v) = Some "phone_number".
Proof. unfold phone_prop. by destruct (ostr_truthy v). Qed.

Lemma property_type_url v : property_type (url_prop v) = Some "url".
Proof. unfold url_prop. by destruct (ostr_truthy v). Qed.

Lemma property_type_date v : property_type (date_prop v) = Some "date".
Proof. by destruct v. Qed.

(** X11: [to_notion_properties] emits exactly the properties the schema
    declares, in the schema's order, each as an object of the type the
    schema gives it. *)
Theorem properties_match_schema (today : date) (c : Contact) :
  exists d, to_notion_properties today c = JDict d
            /\ property_types d = property_types SCHEMA.
Proof.
  eexists. split; [reflexivity|].
  unfold property_types. cbn [map fst snd].
  rewrite !property_type_rich_text, !property_type_email, !property_type_phone,
    !property_type_url, !property_type_date.
  reflexivity.
Qed.

(** ** The [init-schema] command *)

Lemma existsb_eqb_In (k : string) (l : list string) :
  existsb (String.eqb k) l = true <-> In k l.
Proof.
  rewrite existsb_exists. split.
  - intros (x & Hin & Heq). apply String.eqb_eq in Heq. by subst.
  - intros Hin. exists k. split; [exact Hin | apply String.eqb_refl].
Qed.

Lemma filter_nothing {A} (f : A -> bool) (l : list A) :
  (forall x, In x l -> f x = false) -> List.filter f l = [].
Proof.
  induction l as [|x l IH]; [reflexivity|]. intros Hall.
  cbn [List.filter]. rewrite (Hall x) by (by left).
  apply IH. intros y Hin. apply Hall. by right.
Qed.

(** X12: [init_schema] adds exactly the schema's properties that the
    database lacks, and after they are added nothing is missing: the
    command can be run again. *)
Theorem init_schema_adds_missing (existing_props : list string) :
  (forall k, In k (dict_keys (missing_props existing_props))
             <-> In k (dict_keys SCHEMA) /\ ~ In k existing_props)
  /\ missing_props (existing_props ++ dict_keys (missing_props existing_props)) = [].
Proof.
  unfold missing_props, dict_keys. generalize SCHEMA. intros schema. split.
  - intros k. rewrite !in_map_iff. split.
    + intros ([k' v] & <- & Hin). apply filter_In in Hin as [Hin Hnot]. cbn in Hnot |- *.
      split; [by exists (k', v)|].
      intros Hex. apply existsb_eqb_In in Hex. rewrite Hex in Hnot. discriminate.
    + intros (([k' v] & <- & Hin) & Hnot). exists (k', v). split; [reflexivity|].
      apply filter_In. split; [exact Hin|]. cbn.
      destruct (existsb (String.eqb k') existing_props) eqn:E; [|reflexivity].
      apply existsb_eqb_In in E. contradiction.
  - match goal with |- List.filter ?f schema = [] => 
      assert (Hall : forall kv, In kv schema -> f kv = false) end.
    { intros [k v] Hin. cbn. apply negb_false_iff, existsb_eqb_In, in_app_iff.
      destruct (existsb (String.eqb k) existing_props) eqn:E.
      - left. by apply existsb_eqb_In.
      - right. apply in_map_iff. exists (k, v). split; [reflexivity|].
        apply filter_In. split; [exact Hin|]. cbn. by rewrite E. }
    by apply filter_nothing.
Qed.

(** ** The summary of errors *)

(** X13: the summary shows nothing when there is no error; otherwise a
    heading, the first five messages at most, each on its own line, and
    one more line exactly when more than five errors were recorded. *)
Theorem error_details_lines (errors : list string) :
  error_details [] = []
  /\ (errors <> [] ->
      length (error_details errors)
      = (1 + Nat.min 5 (length errors) + (if (5 <? length errors)%nat then 1 else 0))%nat
      /\ forall i msg, (i < 5)%nat -> errors !! i = Some msg ->
                       error_details errors !! S i = Some ("    - " +:+ msg)).
Proof.
  split; [reflexivity|]. intros Hne. destruct errors as [|e errors]; [contradiction|].
  unfold error_details. remember (e :: errors) as l eqn:El. clear El. split.
  - rewrite !length_app, length_map, length_take.
    destruct (5 <? length l)%nat; cbn [length]; lia.
  - intros i msg Hi Hmsg.
    cbn [app].
    assert (Hcons : forall (h : string) t, (h :: t) !! S i = t !! i) by reflexivity.
    rewrite Hcons, lookup_app_l.
    + rewrite list_lookup_fmap, lookup_take. rewrite decide_True by exact Hi.
      rewrite Hmsg. reflexivity.
    + rewrite length_map, length_take. apply lookup_lt_Some in Hmsg. lia.
Qed.

Lemma error_details_lines_witness :
  length (error_details ["a"; "b"; "c"; "d"; "e"; "f"; "g"]) = 7%nat
  /\ error_details ["a"; "b"; "c"; "d"; "e"; "f"; "g"] !! 1%nat = Some "    - a"
  /\ last (error_details ["a"; "b"; "c"; "d"; "e"; "f"; "g"]) = Some "    ... and 2 more".
Proof.
  destruct (error_details_lines ["a"; "b"; "c"; "d"; "e"; "f"; "g"]) as (_ & H).
  destruct H as (Hlen & Hmsg); [discriminate|].
  split; [exact Hlen|]. split; [apply (Hmsg 0%nat); [lia | reflexivity] | reflexivity].
Defined.

(** ** The remote-to-database phase and the address book *)

Section FromGoogleReads.
Context {W : Type} `{!NotionClient W} `{!GoogleContactsClient W} `{!Clock W}.
Variable fromisoformat : string -> option datetime.

(** X14: [sync_from_google] asks the address book once, for the listing,
    and never again: no contact is fetched one by one and nothing is
    written to the address book; it leaves [skipped] at zero and makes
    at most one database write for each contact. *)
Theorem sync_from_google_reads_once (σ : state W) (contacts : list Contact) (w : W) :
  google_get_contacts (world σ) = (Ok contacts, w) ->
  exists stats σ' l,
    sync_from_google fromisoformat σ = (Ok stats, σ')
    /\ new_calls σ σ' = GetContacts :: l
    /\ List.filter is_google_call l = []
    /\ (length (List.filter is_notion_write l) <= length contacts)%nat
    /\ skipped stats = 0%nat.
Proof using Type.
  intros Hq.
  destruct (sync_from_google_run fromisoformat σ contacts w Hq) as (s & σ' & l & E & C & R).
  exists s, σ', l. split; [exact E|]. split; [by apply new_calls_app|].
  destruct (from_google_run_counts _ _ _ _ R) as (_ & Hs & _ & Hw & Hg).
  repeat split; assumption.
Qed.
End FromGoogleReads.

Lemma sync_from_google_reads_once_witness :
  exists stats σ' l,
    sync_from_google toy_fromisoformat (toy_state ann_world) = (Ok stats, σ')
    /\ new_calls (toy_state ann_world) σ' = GetContacts :: l
    /\ List.filter is_google_call l = []
    /\ (length (List.filter is_notion_write l) <= 1)%nat
    /\ skipped stats = 0%nat.
Proof.
  assert (Hg : google_get_contacts (world (toy_state ann_world))
               = (Ok (parse_connections [ann_person]), ann_world)) by reflexivity.
  exact (sync_from_google_reads_once toy_fromisoformat (toy_state ann_world) _ _ Hg).
Defined.
